(** * DataWarehousing/main.py: BigQuery-style SQL over local parquet files

    A shallow embedding of [main.py] and proofs about it.

    - [Py]: the Python values and built-ins the program uses (strings,
      exceptions, [str.lower], [str.isdigit], [repr], [str.ljust], slices).
    - [Re]: the fragment of Python's [re] the two table patterns and the
      sanitizer's character class need: a backtracking matcher with named
      groups, and [Pattern.sub].
    - then the program's own functions, under the names the source gives
      them.

    A Python [str] is modelled by [string]: one [ascii] per character, read
    as the code points U+0000 to U+00FF. *)

From Stdlib Require Import List Bool Arith ZArith Lia Sorted Permutation.
From Stdlib Require Import Decimal DecimalZ DecimalString Ascii String.
Import ListNotations.
Open Scope string_scope.

(** ** Strings *)

Module Str.

(** Every character of [s] satisfies [p]. *)
Fixpoint all (p : ascii -> bool) (s : string) : bool :=
  match s with
  | "" => true
  | String c s' => p c && all p s'
  end.

(** [c] occurs in [s]. *)
Fixpoint mem (c : ascii) (s : string) : bool :=
  match s with
  | "" => false
  | String c' s' => (c' =? c)%char || mem c s'
  end.

(** The first [n] characters of [s] (the slice [s[:n]] for [0 <= n]). *)
Fixpoint take (n : nat) (s : string) : string :=
  match n, s with
  | S n', String c s' => String c (take n' s')
  | _, _ => ""
  end.

(** [map f s]: [f] applied to every character. *)
Fixpoint map (f : ascii -> ascii) (s : string) : string :=
  match s with
  | "" => ""
  | String c s' => String (f c) (map f s')
  end.

(** [s.endswith(suffix)]. *)
Fixpoint endswith (suffix s : string) : bool :=
  (s =? suffix) ||
  match s with
  | "" => false
  | String _ s' => endswith suffix s'
  end.

(** [s.rfind(c)] for a character [c]: the index of its last occurrence. *)
Fixpoint rindex (c : ascii) (s : string) : option nat :=
  match s with
  | "" => None
  | String x s' =>
      match rindex c s' with
      | Some i => Some (S i)
      | None => if (x =? c)%char then Some 0 else None
      end
  end.

(** [c * n]: the character [c], [n] times. *)
Fixpoint repeat (c : ascii) (n : nat) : string :=
  match n with
  | O => ""
  | S n' => String c (repeat c n')
  end.

End Str.

(** ** Python built-ins *)

Module Py.

(** Code point of a character, and the test [lo <= c <= hi]. *)
Definition ord (c : ascii) : N := N_of_ascii c.

Definition between (lo hi : N) (c : ascii) : bool :=
  ((lo <=? ord c) && (ord c <=? hi))%N.

(** The double quote, U+0022. *)
Definition dquote : ascii := "034"%char.
Definition squote : ascii := "'"%char.
Definition backtick : ascii := "`"%char.

(** [str.lower] on code points below 256: A-Z, and the Latin-1 capitals
    U+00C0..U+00DE except the multiplication sign U+00D7, move up by 32. *)
Definition lower_char (c : ascii) : ascii :=
  if between 65 90 c || (between 192 222 c && negb (ord c =? 215)%N)
  then ascii_of_N (ord c + 32)
  else c.

Definition lower (s : string) : string := Str.map lower_char s.

(** [str.isdigit] on one character below U+0100: 0-9 and the superscripts
    U+00B2, U+00B3 and U+00B9. *)
Definition isdigit_char (c : ascii) : bool :=
  between 48 57 c || (ord c =? 178)%N || (ord c =? 179)%N || (ord c =? 185)%N.

(** [s.replace(old, new)] for a one-character [old]. *)
Fixpoint replace_char (old : ascii) (new : string) (s : string) : string :=
  match s with
  | "" => ""
  | String c s' =>
      if (c =? old)%char then new ++ replace_char old new s'
      else String c (replace_char old new s')
  end.

(** [str(n)] for an [int]: its decimal digits, with a sign when negative. *)
Definition str_of_int (z : Z) : string := NilZero.string_of_int (Z.to_int z).

(** [repr(s)] for a [str].  Single quotes unless the text holds a single
    quote and no double quote; backslash, the chosen quote, tab, newline and
    carriage return are escaped with a backslash; the other characters that
    are not printable (controls, U+007F..U+00A0, U+00AD) are written
    [\xNN] with two lower-case hexadecimal digits. *)
Definition hex_digit (n : N) : ascii :=
  if (n <? 10)%N then ascii_of_N (48 + n) else ascii_of_N (87 + n).

Definition printable (c : ascii) : bool :=
  (between 32 126 c || between 161 255 c) && negb (ord c =? 173)%N.

Definition repr_char (quote : ascii) (c : ascii) : string :=
  if (c =? "\")%char then "\\"
  else if (c =? quote)%char then String "\" (String quote "")
  else if (ord c =? 9)%N then "\t"
  else if (ord c =? 10)%N then "\n"
  else if (ord c =? 13)%N then "\r"
  else if printable c then String c ""
  else String "\" (String "x" (String (hex_digit (ord c / 16))
                                 (String (hex_digit (ord c mod 16)) ""))).

Fixpoint repr_body (quote : ascii) (s : string) : string :=
  match s with
  | "" => ""
  | String c s' => repr_char quote c ++ repr_body quote s'
  end.

Definition repr (s : string) : string :=
  let quote := if Str.mem squote s && negb (Str.mem dquote s)
               then dquote else squote in
  String quote (repr_body quote s ++ String quote "").

(** Exceptions the program raises. *)
Inductive exn : Type :=
| ValueError (msg : string)
| FileNotFoundError (msg : string)
| IndexError
| StopIteration
| OSError (msg : string)
| DuckDBError (msg : string)
| SystemExit (msg : string).

(** The outcome of a call: a value, or a raised exception. *)
Inductive result (A : Type) : Type :=
| Ok (a : A)
| Raise (e : exn).
Arguments Ok {A} a.
Arguments Raise {A} e.

Definition bind {A B} (r : result A) (f : A -> result B) : result B :=
  match r with
  | Ok a => f a
  | Raise e => Raise e
  end.

(** [s.ljust(width)]: padded with spaces on the right. *)
Definition ljust (s : string) (width : nat) : string :=
  s ++ Str.repeat " " (width - length s).

(** [l[i]] and [l[i] = v] on a list, for an index [0 <= i]: out of range
    they raise [IndexError]. *)
Definition list_get {A} (i : nat) (l : list A) : result A :=
  match nth_error l i with
  | Some x => Ok x
  | None => Raise IndexError
  end.

Fixpoint list_set {A} (i : nat) (v : A) (l : list A) : result (list A) :=
  match l, i with
  | [], _ => Raise IndexError
  | _ :: l', O => Ok (v :: l')
  | x :: l', S i' =>
      match list_set i' v l' with
      | Ok l'' => Ok (x :: l'')
      | Raise e => Raise e
      end
  end.

(** The slice [l[:n]]: a negative [n] counts from the end. *)
Definition slice_to {A} (n : Z) (l : list A) : list A :=
  if (0 <=? n)%Z then firstn (Z.to_nat n) l
  else firstn (List.length l - Z.to_nat (- n)) l.

(** A [dict] with [str] keys, in insertion order. *)
Definition dict (V : Type) := list (string * V).

Definition dict_mem {V} (k : string) (d : dict V) : bool :=
  existsb (fun kv => (fst kv =? k)%string) d.

(** [d[k] = v]: a new key goes last, a bound key keeps its place. *)
Fixpoint dict_set {V} (k : string) (v : V) (d : dict V) : dict V :=
  match d with
  | [] => [(k, v)]
  | (k', v') :: d' =>
      if (k' =? k)%string then (k', v) :: d' else (k', v') :: dict_set k v d'
  end.

Definition keys {V} (d : dict V) : list string := List.map fst d.

End Py.

Notation "x <- c1 ;; c2" := (Py.bind c1 (fun x => c2))
  (at level 61, c1 at next level, right associativity).

(** ** Regular expressions *)

Module Re.

(** The pattern syntax the program uses: literal characters, character
    classes, a class repeated with a greedy [+], concatenation, a greedy
    optional non-capturing group [(?:r)?], and named groups [(?P<n>r)]. *)
Inductive regex : Type :=
| Chr (c : ascii)
| Cls (p : ascii -> bool)
| ClsPlus (p : ascii -> bool)
| Cat (r1 r2 : regex)
| Opt (r : regex)
| Grp (name : string) (r : regex).

(** Named groups that took part in a match, with the text each captured. *)
Definition groups := list (string * string).

(** A match found where the search stood: its groups, and the text that
    follows the match's end. *)
Record rmatch : Type := mk_match { m_groups : groups; m_rest : string }.

Definition continuation := string -> groups -> option rmatch.

(** Greedy [+] over a class: take one character of the class, then first try
    to take more, and only when everything after that fails stop here. *)
Fixpoint plus_cls (p : ascii -> bool) (s : string)
    (k : string -> option rmatch) : option rmatch :=
  match s with
  | String c s' =>
      if p c then
        match plus_cls p s' k with
        | Some m => Some m
        | None => k s'
        end
      else None
  | "" => None
  end.

(** Backtracking matcher, anchored at the start of [s]: alternatives are
    tried in priority order and the first that lets the rest of the pattern
    ([k]) succeed wins. *)
Fixpoint exec (r : regex) (s : string) (g : groups) (k : continuation)
    : option rmatch :=
  match r with
  | Chr c =>
      match s with
      | String c' s' => if (c' =? c)%char then k s' g else None
      | "" => None
      end
  | Cls p =>
      match s with
      | String c' s' => if p c' then k s' g else None
      | "" => None
      end
  | ClsPlus p => plus_cls p s (fun s' => k s' g)
  | Cat r1 r2 => exec r1 s g (fun s' g' => exec r2 s' g' k)
  | Opt r' =>
      match exec r' s g k with
      | Some m => Some m
      | None => k s g
      end
  | Grp name r' =>
      exec r' s g
        (fun s' g' => k s' ((name, Str.take (length s - length s') s) :: g'))
  end.

(** [pattern.match(s)]: a match starting at the first character of [s]. *)
Definition match_at (r : regex) (s : string) : option rmatch :=
  exec r s [] (fun s' g => Some (mk_match g s')).

(** [m.group(name)]: [None] for a group that did not take part. *)
Fixpoint lookup (name : string) (g : groups) : option string :=
  match g with
  | [] => None
  | (n, v) :: g' => if (n =? name)%string then Some v else lookup name g'
  end.

Definition group (m : rmatch) (name : string) : option string :=
  lookup name (m_groups m).

(** [pattern.sub(repl, s)]: scan left to right; where the pattern matches,
    emit the replacement and go on after the match; elsewhere copy one
    character.  A match that consumed nothing is replaced, then one
    character is copied.  Every step shortens the text still to scan, so
    [length s + 1] steps always suffice ([sub_unfold]). *)
Fixpoint sub_fuel (fuel : nat) (r : regex) (repl : rmatch -> string)
    (s : string) : string :=
  match fuel with
  | O => ""
  | S fuel' =>
      match match_at r s, s with
      | Some m, String c s' =>
          if (length (m_rest m) <? length s)%nat
          then repl m ++ sub_fuel fuel' r repl (m_rest m)
          else repl m ++ String c (sub_fuel fuel' r repl s')
      | Some m, "" => repl m
      | None, String c s' => String c (sub_fuel fuel' r repl s')
      | None, "" => ""
      end
  end.

Definition sub (r : regex) (repl : rmatch -> string) (s : string) : string :=
  sub_fuel (S (length s)) r repl s.

End Re.

(** ** The program *)

(** [[A-Za-z0-9_]] and [[A-Za-z0-9_-]]. *)
Definition word_char (c : ascii) : bool :=
  Py.between 65 90 c || Py.between 97 122 c || Py.between 48 57 c
  || (c =? "_")%char.

Definition project_char (c : ascii) : bool :=
  word_char c || (c =? "-")%char.

Definition BIGQUERY_TABLE_PATTERN : Re.regex :=
  Re.Cat (Re.Chr "`")
 (Re.Cat (Re.Opt (Re.Cat (Re.Grp "project" (Re.ClsPlus project_char))
                         (Re.Chr ".")))
 (Re.Cat (Re.Grp "dataset" (Re.ClsPlus word_char))
 (Re.Cat (Re.Chr ".")
 (Re.Cat (Re.Grp "table" (Re.ClsPlus word_char))
         (Re.Chr "`"))))).

Definition BIGQUERY_TWO_PART_PATTERN : Re.regex :=
  Re.Cat (Re.Chr "`")
 (Re.Cat (Re.Grp "dataset" (Re.ClsPlus word_char))
 (Re.Cat (Re.Chr ".")
 (Re.Cat (Re.Grp "table" (Re.ClsPlus word_char))
         (Re.Chr "`")))).

(** [sanitize_table_name]. *)
Definition sanitize_table_name (raw_name : string) : Py.result string :=
  let sanitized :=
    Py.lower (Re.sub (Re.Cls (fun c => negb (word_char c))) (fun _ => "_")
                     raw_name) in
  match sanitized with
  | "" =>
      Py.Raise (Py.ValueError
                  ("Unable to create table name from: " ++ Py.repr raw_name))
  | String c _ =>
      Py.Ok (if Py.isdigit_char c then "t_" ++ sanitized else sanitized)
  end.

(** The text of a group in an f-string; a group that did not take part would
    be formatted as [None]. *)
Definition fmt_group (v : option string) : string :=
  match v with
  | Some s => s
  | None => "None"
  end.

(** [x or y] on an optional string: [y] when [x] is [None] or empty. *)
Definition or_default (x : option string) (y : string) : string :=
  match x with
  | Some (String c s) => String c s
  | _ => y
  end.

Definition quoted_pair (dataset table : string) : string :=
  String Py.dquote (dataset ++ String Py.dquote ("." ++
  String Py.dquote (table ++ String Py.dquote ""))).

Definition replace_three_part (m : Re.rmatch) : string :=
  let dataset := fmt_group (Re.group m "dataset") in
  let table := fmt_group (Re.group m "table") in
  quoted_pair dataset table.

Definition replace_two_part (default_dataset : string) (m : Re.rmatch)
    : string :=
  let dataset := or_default (Re.group m "dataset") default_dataset in
  let table := fmt_group (Re.group m "table") in
  quoted_pair dataset table.

(** [translate_bigquery_sql]. *)
Definition translate_bigquery_sql (sql default_dataset : string) : string :=
  let translated := Re.sub BIGQUERY_TABLE_PATTERN replace_three_part sql in
  let translated :=
    Re.sub BIGQUERY_TWO_PART_PATTERN (replace_two_part default_dataset)
           translated in
  Py.replace_char Py.backtick (String Py.dquote "") translated.


(** [[a-z0-9_]], the characters of a sanitized name, and [[0-9]]. *)
Definition ident_char (c : ascii) : bool :=
  Py.between 97 122 c || Py.between 48 57 c || (c =? "_")%char.

Definition digit_char (c : ascii) : bool := Py.between 48 57 c.

(** The raw name after the substitution and the lower-casing, as
    [sanitize_table_name] computes it before its two tests. *)
Definition substituted (raw_name : string) : string :=
  Py.lower (Re.sub (Re.Cls (fun c => negb (word_char c))) (fun _ => "_")
                   raw_name).

(** [needle in haystack] for strings. *)
Definition includes (haystack needle : string) : Prop :=
  exists pre post, haystack = pre ++ needle ++ post.

(** A segment of a reference: a non-empty run of characters of a class. *)
Definition segment (p : ascii -> bool) (s : string) : Prop :=
  s <> "" /\ Str.all p s = true.

(** The references the patterns are written for: [dataset.table] and
    [project.dataset.table] between backticks. *)
Definition ref2 (dataset table : string) : string :=
  "`" ++ dataset ++ "." ++ table ++ "`".

Definition ref3 (project dataset table : string) : string :=
  "`" ++ project ++ "." ++ dataset ++ "." ++ table ++ "`".

(** The first character of [s] is in the class [p]. *)
Definition head_in (p : ascii -> bool) (s : string) : bool :=
  match s with
  | String c _ => p c
  | "" => false
  end.

(** ** Paths, the engine and the outside world *)

(** A [Path] inside a directory: the directory as given, and the entry's
    name. *)
Record Path : Type := mk_path { path_dir : string; path_name : string }.

(** [str(p)]. *)
Definition path_str (p : Path) : string := path_dir p ++ "/" ++ path_name p.

(** [p.stem]: the name without its last suffix; a name whose only dot is its
    first or its last character has no suffix. *)
Definition stem (p : Path) : string :=
  let name := path_name p in
  match Str.rindex "." name with
  | Some i =>
      if ((0 <? i) && (i <? length name - 1))%nat then Str.take i name
      else name
  | None => name
  end.

(** [p < q] on paths: by directory, then by name (character codes). *)
Definition path_ltb (p q : Path) : bool :=
  match String.compare (path_dir p) (path_dir q) with
  | Lt => true
  | Gt => false
  | Eq => String.ltb (path_name p) (path_name q)
  end.

(** [sorted(l)] for paths: a stable sort by [<]. *)
Fixpoint insert_sorted (x : Path) (l : list Path) : list Path :=
  match l with
  | [] => [x]
  | y :: l' => if path_ltb y x then y :: insert_sorted x l' else x :: y :: l'
  end.

Fixpoint sorted (l : list Path) : list Path :=
  match l with
  | [] => []
  | x :: l' => insert_sorted x (sorted l')
  end.

(** A row of a result set: [None] for a null cell, and a non-null value given
    by its [str()]. *)
Definition cell := option string.

(** A cursor: the column descriptors ([None] when the statement returns no
    rows; each descriptor a name and a type code) and the rows not fetched
    yet. *)
Record Cursor : Type := mk_cursor {
  description : option (list (string * string));
  pending : list (list cell)
}.

(** Modelled from the spec: the engine's [fetchmany] (the engine is an
    external collaborator): fetch up to [size] of the rows not fetched yet,
    none for a [size] that is not positive. *)
Definition fetchmany (size : Z) (c : Cursor) : list (list cell) * Cursor :=
  let n := Z.to_nat size in
  (firstn n (pending c), mk_cursor (description c) (skipn n (pending c))).

(** What the program does to the outside world, in order. *)
Inductive event : Type :=
| Connect (database : string)
| Glob (dir pattern : string)
| Resolve (p : Path)
| Execute (sql : string)
| ReadText (path : string)
| FetchMany (size : Z)
| Print (line : string).

Definition trace := list event.

(** What the outside world answers: the names of a directory's entries, the
    resolved absolute path of an entry (as POSIX text), a file's text, and
    the engine's answer to a statement given everything done before it.
    The scan of the directory and the resolution of a path are taken to
    answer: the runs in which one of them raises ([OSError],
    [RuntimeError]) are outside this model. *)
Record Env : Type := mk_env {
  listdir : string -> list string;
  resolve_posix : Path -> string;
  read_text : string -> Py.result string;
  execute : trace -> string -> Py.result Cursor
}.

(** [data_dir.glob(pattern)] for [*suffix]: the entries whose name ends with
    the suffix (hidden files included, letter case significant), in the
    order the system lists them. *)
Definition glob (env : Env) (data_dir suffix : string) : list Path :=
  List.map (mk_path data_dir)
           (List.filter (Str.endswith suffix) (listdir env data_dir)).

Definition nl : string := String "010" "".
Definition indent12 : string := Str.repeat " " 12.
Definition dq : string := String Py.dquote "".

(** ** [register_parquet_tables] *)

(** The [while table_name in loaded_tables] loop.  [fuel] bounds the number
    of turns; [None] when it runs out ([free_name_total]: one turn per bound
    name is enough). *)
Fixpoint free_name (fuel : nat) (loaded_tables : Py.dict Path)
    (base_table_name : string) (suffix : Z) (table_name : string)
    : option string :=
  if Py.dict_mem table_name loaded_tables then
    match fuel with
    | O => None
    | S fuel' =>
        let suffix := (suffix + 1)%Z in
        free_name fuel' loaded_tables base_table_name suffix
                  (base_table_name ++ "_" ++ Py.str_of_int suffix)
    end
  else Some table_name.

Definition create_view_sql (dataset table_name parquet_path_sql : string)
    : string :=
  nl ++ indent12 ++ "CREATE OR REPLACE VIEW " ++ dq ++ dataset ++ dq ++ "."
     ++ dq ++ table_name ++ dq ++ " AS" ++
  nl ++ indent12 ++ "SELECT * FROM read_parquet('" ++ parquet_path_sql ++ "')"
     ++
  nl ++ indent12.

Definition mirror_view_sql (dataset table_name : string) : string :=
  "CREATE OR REPLACE VIEW " ++ dq ++ table_name ++ dq ++
  " AS SELECT * FROM " ++ dq ++ dataset ++ dq ++ "." ++ dq ++ table_name ++ dq.

(** [connection.execute(sql)] with the result dropped; an exception of the
    engine goes on to the caller. *)
Definition run (env : Env) (t : trace) (sql : string) : trace * Py.result unit :=
  match execute env t sql with
  | Py.Ok _ => ((t ++ [Execute sql])%list, Py.Ok tt)
  | Py.Raise e => ((t ++ [Execute sql])%list, Py.Raise e)
  end.

(** The body of [for parquet_file in files], over the files still to do. *)
Fixpoint register_loop (env : Env) (dataset : string) (files : list Path)
    (t : trace) (loaded_tables : Py.dict Path)
    : option (trace * Py.result (Py.dict Path)) :=
  match files with
  | [] => Some (t, Py.Ok loaded_tables)
  | parquet_file :: files' =>
      match sanitize_table_name (stem parquet_file) with
      | Py.Raise e => Some (t, Py.Raise e)
      | Py.Ok base_table_name =>
          match free_name (List.length loaded_tables) loaded_tables
                          base_table_name 1 base_table_name with
          | None => None
          | Some table_name =>
              let t := (t ++ [Resolve parquet_file])%list in
              let parquet_path_sql :=
                Py.replace_char "'" "''" (resolve_posix env parquet_file) in
              match run env t
                        (create_view_sql dataset table_name parquet_path_sql)
              with
              | (t, Py.Raise e) => Some (t, Py.Raise e)
              | (t, Py.Ok _) =>
                  match run env t (mirror_view_sql dataset table_name) with
                  | (t, Py.Raise e) => Some (t, Py.Raise e)
                  | (t, Py.Ok _) =>
                      register_loop env dataset files' t
                        (Py.dict_set table_name parquet_file loaded_tables)
                  end
              end
          end
      end
  end.

Definition register_parquet_tables (env : Env) (t : trace)
    (data_dir dataset : string) : option (trace * Py.result (Py.dict Path)) :=
  let files := sorted (glob env data_dir ".parquet") in
  let t := (t ++ [Glob data_dir "*.parquet"])%list in
  match files with
  | [] =>
      Some (t, Py.Raise (Py.FileNotFoundError
                           ("No parquet files found in " ++ data_dir)))
  | _ :: _ =>
      match run env t ("CREATE SCHEMA IF NOT EXISTS " ++ dq ++ dataset ++ dq)
      with
      | (t, Py.Raise e) => Some (t, Py.Raise e)
      | (t, Py.Ok _) => register_loop env dataset files t []
      end
  end.

(** ** [print_results] *)

Definition str_cell (value : cell) : string :=
  match value with
  | None => "NULL"
  | Some s => s
  end.

(** [for i, value in enumerate(row): widths[i] = max(widths[i], len(value))],
    from index [i] on. *)
Fixpoint widen_row (i : nat) (row : list string) (widths : list nat)
    : Py.result (list nat) :=
  match row with
  | [] => Py.Ok widths
  | value :: row' =>
      w <- Py.list_get i widths ;;
      widths' <- Py.list_set i (Nat.max w (length value)) widths ;;
      widen_row (S i) row' widths'
  end.

Fixpoint widen (string_rows : list (list string)) (widths : list nat)
    : Py.result (list nat) :=
  match string_rows with
  | [] => Py.Ok widths
  | row :: rows' =>
      widths' <- widen_row 0 row widths ;;
      widen rows' widths'
  end.

(** [value.ljust(widths[i]) for i, value in enumerate(cells)], from index
    [i] on. *)
Fixpoint ljust_cells (i : nat) (cells : list string) (widths : list nat)
    : Py.result (list string) :=
  match cells with
  | [] => Py.Ok []
  | value :: cells' =>
      w <- Py.list_get i widths ;;
      rest <- ljust_cells (S i) cells' widths ;;
      Py.Ok (Py.ljust value w :: rest)
  end.

(** [for row in string_rows: print(...)]. *)
Fixpoint print_rows (t : trace) (string_rows : list (list string))
    (widths : list nat) : trace * Py.result unit :=
  match string_rows with
  | [] => (t, Py.Ok tt)
  | row :: rows' =>
      match ljust_cells 0 row widths with
      | Py.Raise e => (t, Py.Raise e)
      | Py.Ok cells =>
          print_rows (t ++ [Print (String.concat " | " cells)])%list rows'
                     widths
      end
  end.

Definition truncation_notice (max_rows : Z) : string :=
  "... showing first " ++ Py.str_of_int max_rows ++ " rows".

Definition print_results (t : trace) (cursor : Cursor) (max_rows : Z)
    : trace * Cursor * Py.result unit :=
  match description cursor with
  | None => ((t ++ [Print "Statement executed successfully."])%list,
             cursor, Py.Ok tt)
  | Some desc =>
      let columns := List.map fst desc in
      let '(rows, cursor) := fetchmany (max_rows + 1) cursor in
      let t := (t ++ [FetchMany (max_rows + 1)])%list in
      let has_more_rows := (max_rows <? Z.of_nat (List.length rows))%Z in
      let rows := Py.slice_to max_rows rows in
      let string_rows := List.map (List.map str_cell) rows in
      let widths := List.map length columns in
      match widen string_rows widths with
      | Py.Raise e => (t, cursor, Py.Raise e)
      | Py.Ok widths =>
          match ljust_cells 0 columns widths with
          | Py.Raise e => (t, cursor, Py.Raise e)
          | Py.Ok header_cells =>
              let header := String.concat " | " header_cells in
              let separator :=
                String.concat "-+-" (List.map (Str.repeat "-") widths) in
              let t := (t ++ [Print header; Print separator])%list in
              match print_rows t string_rows widths with
              | (t, Py.Raise e) => (t, cursor, Py.Raise e)
              | (t, Py.Ok _) =>
                  if has_more_rows
                  then ((t ++ [Print (truncation_notice max_rows)])%list,
                        cursor, Py.Ok tt)
                  else (t, cursor, Py.Ok tt)
              end
          end
      end
  end.

(** ** [main] *)

Inductive Dialect : Type := bigquery | duckdb.

(** The [Namespace] that [parse_args] returns. *)
Record Args : Type := mk_args {
  data_dir : string;
  dataset : string;
  dialect : Dialect;
  query : option string;
  query_file : option string;
  show_sql : bool;
  max_rows : Z
}.

(** Truth value of an optional string: [None] and the empty string are
    false. *)
Definition truthy (x : option string) : bool :=
  match x with
  | Some (String _ _) => true
  | _ => false
  end.

(** Truth value of an optional [Path]: any path is true. *)
Definition is_path (x : option string) : bool :=
  match x with
  | Some _ => true
  | None => false
  end.

(** [for table_name, source_file in tables.items(): print(...)]. *)
Definition print_tables (t : trace) (dataset : string) (tables : Py.dict Path)
    : trace :=
  (t ++ List.map (fun kv => Print ("- " ++ dataset ++ "." ++ fst kv ++ " <- "
                                   ++ path_name (snd kv))) tables)%list.

Definition main (env : Env) (args : Args) : option (trace * Py.result unit) :=
  if truthy (query args) && is_path (query_file args) then
    Some ([], Py.Raise (Py.SystemExit
                          "Use either --query or --query-file, not both."))
  else
    let t := [Connect ":memory:"] in
    match register_parquet_tables env t (data_dir args) (dataset args) with
    | None => None
    | Some (t, Py.Raise e) => Some (t, Py.Raise e)
    | Some (t, Py.Ok tables) =>
        let read :=
          match query_file args with
          | Some f =>
              match read_text env f with
              | Py.Ok text => ((t ++ [ReadText f])%list, Py.Ok (Some text))
              | Py.Raise e => ((t ++ [ReadText f])%list, Py.Raise e)
              end
          | None => (t, Py.Ok (query args))
          end in
        match read with
        | (t, Py.Raise e) => Some (t, Py.Raise e)
        | (t, Py.Ok query_text) =>
            match query_text with
            | None | Some "" =>
                let t := (t ++ [Print "Loaded parquet tables:"])%list in
                let t := print_tables t (dataset args) tables in
                match Py.keys tables with
                | [] => Some (t, Py.Raise Py.StopIteration)
                | example_table :: _ =>
                    Some ((t ++ [Print (nl ++ "Example:");
                                 Print ("uv run python main.py --query " ++
                                        "'SELECT COUNT(*) AS trips FROM `local."
                                        ++ dataset args ++ "." ++ example_table
                                        ++ "`'")])%list,
                          Py.Ok tt)
                end
            | Some query_text =>
                let translated_query :=
                  match dialect args with
                  | bigquery =>
                      translate_bigquery_sql query_text (dataset args)
                  | duckdb => query_text
                  end in
                let t :=
                  if show_sql args
                  then (t ++ [Print "SQL sent to DuckDB:";
                              Print translated_query; Print ""])%list
                  else t in
                match execute env t translated_query with
                | Py.Raise (Py.DuckDBError exc) =>
                    Some ((t ++ [Execute translated_query])%list,
                          Py.Raise (Py.SystemExit ("Query failed: " ++ exc)))
                | Py.Raise e =>
                    Some ((t ++ [Execute translated_query])%list, Py.Raise e)
                | Py.Ok cursor =>
                    let '(t, _, r) :=
                      print_results (t ++ [Execute translated_query])%list
                                    cursor (max_rows args) in
                    Some (t, r)
                end
            end
        end
    end.

(** The process's exit status: zero on a normal return; an exception that
    reaches the top, [SystemExit] with a message included, gives one. *)
Definition exit_status (r : Py.result unit) : Z :=
  match r with
  | Py.Ok _ => 0
  | Py.Raise _ => 1
  end.

(** ** Vocabulary of the statements *)

(** The names the [while] loop of [register_parquet_tables] tries, in
    order: the base name for [suffix = 1], then the base name, an underscore
    and the suffix for 2, 3, ... *)
Definition candidate (base : string) (suffix : Z) : string :=
  if (suffix <=? 1)%Z then base else base ++ "_" ++ Py.str_of_int suffix.

(** [name] is the first of the candidates for [base] that is not in
    [bound]: the base name itself when it is free, otherwise the base name
    with the least suffix from 2 on that gives a free name. *)
Definition first_unused (bound : list string) (base name : string) : Prop :=
  exists suffix, (1 <= suffix)%Z
    /\ name = candidate base suffix
    /\ ~ In name bound
    /\ forall j, (1 <= j < suffix)%Z -> In (candidate base j) bound.

(** Every binding of [tables], in order, has the first candidate for its
    file's sanitized stem that the names bound before it leave free. *)
Definition named_in_order (tables : Py.dict Path) : Prop :=
  forall pre name file post,
    tables = (pre ++ (name, file) :: post)%list ->
    exists base,
      sanitize_table_name (stem file) = Py.Ok base
      /\ first_unused (Py.keys pre) base name.

(** [p <= q] on paths. *)
Definition path_le (p q : Path) : Prop := path_ltb q p = false.

(** A result set is well formed when every row has one cell per column. *)
Definition well_formed (c : Cursor) : Prop :=
  match description c with
  | Some desc =>
      Forall (fun row : list cell => List.length row = List.length desc)
             (pending c)
  | None => True
  end.

(** [line] shows [row]: its cells, padded to [widths], joined by bars. *)
Definition line_of_row (widths : list nat) (row : list cell) (line : string)
    : Prop :=
  exists cells,
    ljust_cells 0 (List.map str_cell row) widths = Py.Ok cells
    /\ line = String.concat " | " cells.

(** What C6 says of [print_results t c m] for a cursor that holds [N] rows:
    it asks the engine for [m + 1] rows (and so takes at most that many),
    prints the header, the separator and [min N m] data lines, which show
    the first rows in order, then, if and only if [N > m], a notice that
    states the number of data lines. *)
Definition renders_truncated (t : trace) (c : Cursor) (m : Z) : Prop :=
  let N := Z.of_nat (List.length (pending c)) in
  exists desc widths header_cells lines,
    description c = Some desc
    /\ ljust_cells 0 (List.map fst desc) widths = Py.Ok header_cells
    /\ Forall2 (line_of_row widths)
               (firstn (List.length lines) (pending c)) lines
    /\ Z.of_nat (List.length lines) = Z.min N m
    /\ (Z.of_nat (List.length (fst (fetchmany (m + 1) c))) <= m + 1)%Z
    /\ print_results t c m =
       ((t ++ FetchMany (m + 1)
            :: Print (String.concat " | " header_cells)
            :: Print (String.concat "-+-"
                        (List.map (Str.repeat "-") widths))
            :: List.map Print lines
            ++ (if (m <? N)%Z
                then [Print (truncation_notice
                               (Z.of_nat (List.length lines)))]
                else []))%list,
        snd (fetchmany (m + 1) c),
        Py.Ok tt).

(** A cursor over one integer column holding the rows 1 .. [n]. *)
Definition numbers (n : nat) : Cursor :=
  mk_cursor (Some [("n", "INTEGER")])
            (List.map (fun k => [Some (Py.str_of_int (Z.of_nat k))])
                      (seq 1 n)).

(** ** Concrete worlds for the examples *)

(** An engine that accepts every statement and returns no rows. *)
Definition quiet_engine (t : trace) (sql : string) : Py.result Cursor :=
  Py.Ok (mk_cursor None []).

(** A world whose every directory lists the given names; paths resolve under
    [/srv], and every file reads as [SELECT 1]. *)
Definition world_of (names : list string) : Env :=
  mk_env (fun _ => names) (fun p => "/srv/" ++ path_str p)
         (fun _ => Py.Ok "SELECT 1") quiet_engine.

(** What C8 says of an invocation: [main] stops at once, before any effect,
    with the message about the two flags. *)
Definition conflict_message : string :=
  "Use either --query or --query-file, not both.".

Definition rejects_conflict (env : Env) (args : Args) : Prop :=
  main env args = Some ([], Py.Raise (Py.SystemExit conflict_message)).

(** ** Vocabulary of the proofs *)

(** The groups of a match on a two-segment and on a three-segment
    reference, last group first. *)
Definition two_groups (d t : string) : Re.groups :=
  [("table", t); ("dataset", d)].

Definition three_groups (p d t : string) : Re.groups :=
  [("table", t); ("dataset", d); ("project", p)].

(** The tail [dataset.table`] of both patterns, after the opening backtick
    (and the project, if any). *)
Definition tail_pattern : Re.regex :=
  Re.Cat (Re.Grp "dataset" (Re.ClsPlus word_char))
 (Re.Cat (Re.Chr ".")
 (Re.Cat (Re.Grp "table" (Re.ClsPlus word_char))
         (Re.Chr "`"))).

Definition project_part : Re.regex :=
  Re.Opt (Re.Cat (Re.Grp "project" (Re.ClsPlus project_char)) (Re.Chr ".")).

(** The three steps of [translate_bigquery_sql]. *)
Definition sub3 : string -> string :=
  Re.sub BIGQUERY_TABLE_PATTERN replace_three_part.

Definition sub2 (dflt : string) : string -> string :=
  Re.sub BIGQUERY_TWO_PART_PATTERN (replace_two_part dflt).

Definition unquote : string -> string :=
  Py.replace_char Py.backtick (String Py.dquote "").

(** The two-segment pattern matches at no position of [t]. *)
Definition free2 (t : string) : Prop :=
  forall u v, t = u ++ v -> Re.match_at BIGQUERY_TWO_PART_PATTERN v = None.

(** The sanitizer's substitution, on one character. *)
Definition subst_char (c : ascii) : ascii :=
  if negb (word_char c) then "_"%char else c.

(** ** Vocabulary of the further properties *)

(** Neither a dot nor a backtick. *)
Definition plain_char (c : ascii) : bool :=
  negb ((c =? ".")%char || (c =? "`")%char).

(** What registering one table does: resolve its file, create the view
    [dataset.table] over the file, with the single quotes of the resolved
    path doubled, and create the unqualified view over that view.  The two
    statements are spelled out here, character by character. *)
Definition view_events (env : Env) (dataset : string)
    (binding : string * Path) : list event :=
  let table_name := fst binding in
  let parquet_path_sql :=
    Py.replace_char "'" "''" (resolve_posix env (snd binding)) in
  [Resolve (snd binding);
   Execute (nl ++ "            CREATE OR REPLACE VIEW "
               ++ String "034" dataset ++ String "034" "."
               ++ String "034" table_name ++ String "034" " AS" ++
            nl ++ "            SELECT * FROM read_parquet('"
               ++ parquet_path_sql ++ "')" ++
            nl ++ "            ");
   Execute ("CREATE OR REPLACE VIEW " ++ String "034" table_name
            ++ String "034" " AS SELECT * FROM "
            ++ String "034" dataset ++ String "034" "."
            ++ String "034" table_name ++ String "034" "")].

(** The layout of [print_results], as functions of the column names and the
    rows shown.  The width of a column is the greatest length among its name
    and its cells. *)
Fixpoint pointwise_max (widths lens : list nat) : list nat :=
  match widths, lens with
  | w :: ws, l :: ls => Nat.max w l :: pointwise_max ws ls
  | _, _ => widths
  end.

Definition column_widths (columns : list string)
    (string_rows : list (list string)) : list nat :=
  fold_left (fun widths row => pointwise_max widths (List.map length row))
            string_rows (List.map length columns).

(** The cells of one line, each padded to the width of its column. *)
Definition padded (cells : list string) (widths : list nat) : list string :=
  List.map (fun vw => Py.ljust (fst vw) (snd vw)) (combine cells widths).

Definition table_line (widths : list nat) (cells : list string) : string :=
  String.concat " | " (padded cells widths).

Definition separator_line (widths : list nat) : string :=
  String.concat "-+-" (List.map (Str.repeat "-") widths).

(** The length of every line of a table with these column widths. *)
Definition line_width (widths : list nat) : nat :=
  list_sum widths + 3 * (List.length widths - 1).

(** The query of the example that [main] prints for a table. *)
Definition example_query (dataset table : string) : string :=
  "SELECT COUNT(*) AS trips FROM `local." ++ dataset ++ "." ++ table ++ "`".

(** The events of showing a result: fetching rows and printing. *)
Definition rendering (e : event) : Prop :=
  match e with
  | FetchMany _ | Print _ => True
  | _ => False
  end.

(** The letters A-Z moved to a-z, every other character kept. *)
Definition ascii_lower (c : ascii) : ascii :=
  if Py.between 65 90 c then ascii_of_N (Py.ord c + 32) else c.

(** A lower-case identifier: not empty, made of lower-case letters, digits
    and underscores, not starting with a digit. *)
Definition identifier (name : string) : Prop :=
  name <> "" /\ Str.all ident_char name = true
  /\ head_in digit_char name = false.

(** * Proofs *)

(** ** Strings *)

Module StrFacts.
Import Str.

Lemma append_nil_r (s : string) : s ++ "" = s.
Proof. induction s as [|c s IH]; simpl; [reflexivity | now rewrite IH]. Qed.

Lemma append_assoc (a b c : string) : (a ++ b) ++ c = a ++ (b ++ c).
Proof. induction a as [|x a IH]; simpl; [reflexivity | now rewrite IH]. Qed.

Lemma length_append (a b : string) : length (a ++ b) = length a + length b.
Proof. induction a as [|x a IH]; simpl; [reflexivity | now rewrite IH]. Qed.

Lemma all_append p a b : all p (a ++ b) = all p a && all p b.
Proof.
  induction a as [|x a IH]; simpl; [reflexivity|].
  now rewrite IH, andb_assoc.
Qed.

Lemma mem_append c a b : mem c (a ++ b) = mem c a || mem c b.
Proof.
  induction a as [|x a IH]; simpl; [reflexivity|].
  now rewrite IH, orb_assoc.
Qed.

Lemma take_append (a b : string) : take (length a) (a ++ b) = a.
Proof. induction a as [|x a IH]; simpl; [now destruct b | now rewrite IH]. Qed.

Lemma take_append_sub (a b : string) :
  take (length (a ++ b) - length b) (a ++ b) = a.
Proof.
  rewrite length_append.
  replace (length a + length b - length b) with (length a) by lia.
  apply take_append.
Qed.

Lemma length_map f s : length (map f s) = length s.
Proof. induction s as [|c s IH]; simpl; [reflexivity | now rewrite IH]. Qed.

End StrFacts.

(** ** The matcher: general facts *)

Module ReFacts.
Import Re.

(** What a successful [+] consumed: a non-empty run of the class, after which
    the rest of the pattern succeeded. *)
Lemma plus_cls_inv p s k m :
  plus_cls p s k = Some m ->
  exists a b, s = a ++ b /\ a <> "" /\ Str.all p a = true /\ k b = Some m.
Proof.
  revert m. induction s as [|c s IH]; intros m H; simpl in H; [discriminate|].
  destruct (p c) eqn:Hc; [|discriminate].
  destruct (plus_cls p s k) as [m'|] eqn:Hrec.
  - destruct (IH m' eq_refl) as (a & b & -> & _ & Ha & Hk).
    exists (String c a), b. simpl. rewrite Hc, Ha.
    repeat split; congruence.
  - exists (String c ""), s. simpl. rewrite Hc.
    repeat split; congruence.
Qed.

(** When the rest of the pattern cannot start with a character of the class,
    backtracking into the run is useless: [+] takes the whole run. *)
Lemma plus_cls_run p a b k :
  a <> "" -> Str.all p a = true -> head_in p b = false ->
  (forall s', head_in p s' = true -> k s' = None) ->
  plus_cls p (a ++ b) k = k b.
Proof.
  intros Hne Ha Hb Hk. induction a as [|c a IH]; [congruence|].
  simpl in *. apply andb_prop in Ha as [Hc Ha]. rewrite Hc.
  destruct a as [|c' a].
  - simpl. destruct b as [|x b]; simpl in *; [reflexivity|].
    rewrite Hb. reflexivity.
  - rewrite IH by (congruence || assumption).
    destruct (k b) eqn:E; [reflexivity|].
    apply Hk. simpl in *. now apply andb_prop in Ha as [-> _].
Qed.

(** [sub_fuel] does not depend on the fuel once it exceeds the length. *)
Lemma sub_fuel_stable r repl n1 : forall n2 s,
  length s < n1 -> length s < n2 ->
  sub_fuel n1 r repl s = sub_fuel n2 r repl s.
Proof.
  induction n1 as [|n1 IH]; intros n2 s H1 H2; [lia|].
  destruct n2 as [|n2]; [lia|]. simpl.
  destruct (match_at r s) as [m|], s as [|c s']; try reflexivity.
  - destruct (Nat.ltb_spec (length (m_rest m)) (length (String c s'))) as [Hlt|_].
    + f_equal. apply IH; lia.
    + do 2 f_equal. apply IH; simpl in *; lia.
  - f_equal. apply IH; simpl in *; lia.
Qed.

(** The scan, one step at a time. *)
Lemma sub_unfold r repl s :
  sub r repl s =
  match match_at r s, s with
  | Some m, String c s' =>
      if (length (m_rest m) <? length s)%nat
      then repl m ++ sub r repl (m_rest m)
      else repl m ++ String c (sub r repl s')
  | Some m, "" => repl m
  | None, String c s' => String c (sub r repl s')
  | None, "" => ""
  end.
Proof.
  unfold sub at 1. simpl.
  destruct (match_at r s) as [m|], s as [|c s']; try reflexivity.
  - destruct (Nat.ltb_spec (length (m_rest m)) (length (String c s'))) as [Hlt|_].
    + f_equal. apply sub_fuel_stable; lia.
    + reflexivity.
Qed.

Lemma sub_nil r repl : match_at r "" = None -> sub r repl "" = "".
Proof. intros H. rewrite sub_unfold, H. reflexivity. Qed.

Lemma sub_skip r repl c s :
  match_at r (String c s) = None ->
  sub r repl (String c s) = String c (sub r repl s).
Proof. intros H. rewrite sub_unfold, H. reflexivity. Qed.

Lemma sub_hit r repl s m :
  match_at r s = Some m -> length (m_rest m) < length s ->
  sub r repl s = repl m ++ sub r repl (m_rest m).
Proof.
  intros H Hlt. rewrite sub_unfold, H.
  destruct s as [|c s']; [simpl in Hlt; lia|].
  apply Nat.ltb_lt in Hlt. now rewrite Hlt.
Qed.

(** Two replacement functions that agree on every match give the same
    substitution. *)
Lemma sub_ext r repl1 repl2 :
  (forall s m, match_at r s = Some m -> repl1 m = repl2 m) ->
  forall s, sub r repl1 s = sub r repl2 s.
Proof.
  intros Hext s.
  remember (length s) as n eqn:Hn. revert s Hn.
  induction n as [n IH] using lt_wf_ind. intros s ->.
  rewrite (sub_unfold r repl1), (sub_unfold r repl2).
  destruct (match_at r s) as [m|] eqn:Hm, s as [|c s'].
  - now apply Hext in Hm.
  - rewrite (Hext _ _ Hm).
    destruct (Nat.ltb_spec (length (m_rest m)) (length (String c s'))) as [Hlt|_].
    + f_equal. now apply (IH (length (m_rest m))).
    + do 2 f_equal. apply (IH (length s')); simpl; lia.
  - reflexivity.
  - f_equal. apply (IH (length s')); simpl; lia.
Qed.

End ReFacts.

(** ** The two table patterns *)

Module PatternFacts.
Import Re ReFacts.

Lemma word_char_not c :
  word_char c = true ->
  c <> "."%char /\ c <> "`"%char /\ c <> "-"%char /\ c <> Py.dquote.
Proof.
  destruct c as [[] [] [] [] [] [] [] []]; vm_compute;
    intros H; repeat split; congruence.
Qed.

Lemma project_char_not c :
  project_char c = true -> c <> "."%char /\ c <> "`"%char /\ c <> Py.dquote.
Proof.
  destruct c as [[] [] [] [] [] [] [] []]; vm_compute;
    intros H; repeat split; congruence.
Qed.

Lemma word_project c : word_char c = true -> project_char c = true.
Proof. unfold project_char. now intros ->. Qed.

Lemma all_word_project s : Str.all word_char s = true ->
  Str.all project_char s = true.
Proof.
  induction s as [|c s IH]; simpl; [reflexivity|].
  intros H. apply andb_prop in H as [Hc Hs].
  now rewrite (word_project _ Hc), IH.
Qed.

(** Literal characters. *)
Lemma exec_chr_hit c s g k : exec (Chr c) (String c s) g k = k s g.
Proof. simpl. now rewrite Ascii.eqb_refl. Qed.

Lemma exec_chr_miss c c' s g k :
  c' <> c -> exec (Chr c) (String c' s) g k = None.
Proof. intros H. simpl. apply Ascii.eqb_neq in H. now rewrite H. Qed.

Lemma exec_chr_inv c s g k m :
  exec (Chr c) s g k = Some m -> exists s', s = String c s' /\ k s' g = Some m.
Proof.
  destruct s as [|c' s]; simpl; [discriminate|].
  destruct (Ascii.eqb_spec c' c) as [->|]; [|discriminate].
  intros H. now exists s.
Qed.

(** A literal that is outside the class [p] cannot match where a character
    of [p] stands. *)
Lemma exec_chr_head p c r s g k :
  (forall x, p x = true -> x <> c) -> head_in p s = true ->
  exec (Cat (Chr c) r) s g k = None /\ exec (Chr c) s g k = None.
Proof.
  intros Hp Hs. destruct s as [|x s]; [discriminate|]. simpl in Hs.
  apply Hp, Ascii.eqb_neq in Hs. simpl. now rewrite Hs.
Qed.

(** A named group around [p+]. *)
Lemma exec_grp_run name p a b g k :
  a <> "" -> Str.all p a = true -> head_in p b = false ->
  (forall s' g', head_in p s' = true -> k s' g' = None) ->
  exec (Grp name (ClsPlus p)) (a ++ b) g k = k b ((name, a) :: g).
Proof.
  intros Ha Hall Hb Hk. simpl.
  rewrite plus_cls_run by (try assumption; intros; now apply Hk).
  now rewrite StrFacts.take_append_sub.
Qed.

Lemma exec_grp_inv name p s g k m :
  exec (Grp name (ClsPlus p)) s g k = Some m ->
  exists a b, s = a ++ b /\ a <> "" /\ Str.all p a = true
              /\ k b ((name, a) :: g) = Some m.
Proof.
  simpl. intros H. apply plus_cls_inv in H as (a & b & -> & Ha & Hall & Hk).
  rewrite StrFacts.take_append_sub in Hk. now exists a, b.
Qed.

End PatternFacts.

Module MatchFacts.
Import Re ReFacts PatternFacts.

Lemma ref2_app d t rest :
  ref2 d t ++ rest = String "`" (d ++ String "." (t ++ String "`" rest)).
Proof.
  unfold ref2. simpl. f_equal.
  rewrite !StrFacts.append_assoc. simpl. f_equal. f_equal.
  now rewrite StrFacts.append_assoc.
Qed.

Lemma ref3_app p d t rest :
  ref3 p d t ++ rest =
  String "`" (p ++ String "." (d ++ String "." (t ++ String "`" rest))).
Proof.
  unfold ref3. simpl. f_equal.
  rewrite !StrFacts.append_assoc. simpl. do 2 f_equal.
  rewrite !StrFacts.append_assoc. simpl. do 2 f_equal.
  now rewrite StrFacts.append_assoc.
Qed.

Lemma tail_intro d t rest g k :
  segment word_char d -> segment word_char t ->
  exec tail_pattern (d ++ String "." (t ++ String "`" rest)) g k =
  k rest (("table", t) :: ("dataset", d) :: g).
Proof.
  intros [Hd Hdw] [Ht Htw]. unfold tail_pattern.
  change (exec (Cat ?a ?b) ?s ?g ?k)
    with (exec a s g (fun s' g' => exec b s' g' k)).
  rewrite exec_grp_run; try assumption; try reflexivity.
  2:{ intros s' g' H.
      apply (exec_chr_head word_char "." _ s' g' k); [|assumption].
      intros x Hx. apply word_char_not in Hx. tauto. }
  change (exec (Cat ?a ?b) ?s ?g ?k)
    with (exec a s g (fun s' g' => exec b s' g' k)).
  rewrite exec_chr_hit.
  change (exec (Cat ?a ?b) ?s ?g ?k)
    with (exec a s g (fun s' g' => exec b s' g' k)).
  rewrite exec_grp_run; try assumption; try reflexivity.
  intros s' g' H.
  apply (exec_chr_head word_char "`" (Chr "`") s' g' k); [|assumption].
  intros x Hx. apply word_char_not in Hx. tauto.
Qed.

Lemma tail_inv s g k m :
  exec tail_pattern s g k = Some m ->
  exists d t rest, segment word_char d /\ segment word_char t /\
    s = d ++ String "." (t ++ String "`" rest) /\
    k rest (("table", t) :: ("dataset", d) :: g) = Some m.
Proof.
  unfold tail_pattern.
  change (exec (Cat ?a ?b) ?s ?g ?k)
    with (exec a s g (fun s' g' => exec b s' g' k)).
  intros H. apply exec_grp_inv in H as (d & b & -> & Hd & Hdw & H).
  change (exec (Cat ?a ?b) ?s ?g ?k)
    with (exec a s g (fun s' g' => exec b s' g' k)) in H.
  apply exec_chr_inv in H as (s1 & -> & H).
  change (exec (Cat ?a ?b) ?s ?g ?k)
    with (exec a s g (fun s' g' => exec b s' g' k)) in H.
  apply exec_grp_inv in H as (t & b & -> & Ht & Htw & H).
  apply exec_chr_inv in H as (rest & -> & H).
  exists d, t, rest. unfold segment. auto.
Qed.

(** The tail fails on text whose first segment is not followed by a dot and
    a second segment closed by a backtick; in particular where a segment is
    followed by a backtick. *)
Lemma tail_fail_backtick d rest g k :
  segment word_char d -> exec tail_pattern (d ++ String "`" rest) g k = None.
Proof.
  intros [Hd Hdw]. unfold tail_pattern.
  change (exec (Cat ?a ?b) ?s ?g ?k)
    with (exec a s g (fun s' g' => exec b s' g' k)).
  rewrite exec_grp_run; try assumption; try reflexivity.
  intros s' g' H.
  apply (exec_chr_head word_char "." _ s' g' k); [|assumption].
  intros x Hx. apply word_char_not in Hx. tauto.
Qed.

Ltac cat_step :=
  change (exec (Cat ?a ?b) ?s ?g ?k)
    with (exec a s g (fun s' g' => exec b s' g' k)).

Ltac cat_step_in H :=
  change (exec (Cat ?a ?b) ?s ?g ?k)
    with (exec a s g (fun s' g' => exec b s' g' k)) in H.

(** The two-segment pattern matches exactly the text that starts with a
    two-segment reference. *)
Lemma match2_intro d t rest :
  segment word_char d -> segment word_char t ->
  match_at BIGQUERY_TWO_PART_PATTERN (ref2 d t ++ rest) =
  Some (mk_match (two_groups d t) rest).
Proof.
  intros Hd Ht. rewrite ref2_app. unfold match_at.
  change BIGQUERY_TWO_PART_PATTERN with (Cat (Chr "`") tail_pattern).
  cat_step. rewrite exec_chr_hit. now rewrite tail_intro.
Qed.

Lemma match2_inv s m :
  match_at BIGQUERY_TWO_PART_PATTERN s = Some m ->
  exists d t rest, segment word_char d /\ segment word_char t /\
    s = ref2 d t ++ rest /\ m = mk_match (two_groups d t) rest.
Proof.
  unfold match_at.
  change BIGQUERY_TWO_PART_PATTERN with (Cat (Chr "`") tail_pattern).
  cat_step. intros H. apply exec_chr_inv in H as (s1 & -> & H).
  apply tail_inv in H as (d & t & rest & Hd & Ht & -> & H).
  exists d, t, rest. rewrite ref2_app.
  do 3 (split; [assumption || reflexivity|]).
  cbv beta in H. now injection H as <-.
Qed.

Lemma three_part_eq :
  BIGQUERY_TABLE_PATTERN = Cat (Chr "`") (Cat project_part tail_pattern).
Proof. reflexivity. Qed.

(** The three-segment pattern on a three-segment reference. *)
Lemma match3_intro3 p d t rest :
  segment project_char p -> segment word_char d -> segment word_char t ->
  match_at BIGQUERY_TABLE_PATTERN (ref3 p d t ++ rest) =
  Some (mk_match (three_groups p d t) rest).
Proof.
  intros [Hp Hpw] Hd Ht. rewrite ref3_app, three_part_eq. unfold match_at.
  cat_step. rewrite exec_chr_hit. cat_step. unfold project_part.
  cbn [exec]. fold (plus_cls project_char).
  change (plus_cls project_char ?s ?k)
    with (plus_cls project_char s k).
  rewrite plus_cls_run; try assumption; try reflexivity.
  - rewrite Ascii.eqb_refl, StrFacts.take_append_sub.
    fold tail_pattern.
    now rewrite (tail_intro d t rest [("project", p)]).
  - intros [|x s'] H; [discriminate|]. simpl in H.
    apply project_char_not in H as (H & _). apply Ascii.eqb_neq in H.
    now rewrite H.
Qed.

(** The three-segment pattern on a two-segment reference: the attempt with
    a project consumes the dataset as project and the table as dataset, then
    finds a backtick where it needs a dot; no shorter run helps, and the
    attempt without a project succeeds. *)
Lemma match3_intro2 d t rest :
  segment word_char d -> segment word_char t ->
  match_at BIGQUERY_TABLE_PATTERN (ref2 d t ++ rest) =
  Some (mk_match (two_groups d t) rest).
Proof.
  intros Hd Ht. rewrite ref2_app, three_part_eq. unfold match_at.
  cat_step. rewrite exec_chr_hit. cat_step. unfold project_part.
  cbn [exec]. fold tail_pattern.
  rewrite plus_cls_run; try reflexivity.
  - rewrite Ascii.eqb_refl, (tail_fail_backtick t rest) by assumption.
    now rewrite (tail_intro d t rest []).
  - apply Hd.
  - apply all_word_project, Hd.
  - intros [|x s'] H; [discriminate|]. simpl in H.
    apply project_char_not in H as (H & _). apply Ascii.eqb_neq in H.
    now rewrite H.
Qed.

Lemma match3_inv s m :
  match_at BIGQUERY_TABLE_PATTERN s = Some m ->
  (exists p d t rest,
      segment project_char p /\ segment word_char d /\ segment word_char t /\
      s = ref3 p d t ++ rest /\ m = mk_match (three_groups p d t) rest)
  \/
  (exists d t rest,
      segment word_char d /\ segment word_char t /\
      s = ref2 d t ++ rest /\ m = mk_match (two_groups d t) rest).
Proof.
  rewrite three_part_eq. unfold match_at. cat_step.
  intros H. apply exec_chr_inv in H as (s1 & -> & H).
  cat_step_in H. unfold project_part in H. cbn [exec] in H.
  fold tail_pattern in H.
  match type of H with
  | match ?e with _ => _ end = _ => destruct e as [m'|] eqn:E
  end.
  - injection H as ->. left.
    apply plus_cls_inv in E as (p & b & -> & Hp & Hpw & E).
    destruct b as [|c b]; [discriminate|].
    destruct (Ascii.eqb_spec c ".") as [->|]; [|discriminate].
    rewrite StrFacts.take_append_sub in E.
    apply tail_inv in E as (d & t & rest & Hd & Ht & -> & E).
    exists p, d, t, rest. rewrite ref3_app.
    split; [now split|]. do 3 (split; [assumption || reflexivity|]).
    now injection E as <-.
  - right. apply tail_inv in H as (d & t & rest & Hd & Ht & -> & H).
    exists d, t, rest. rewrite ref2_app.
    do 3 (split; [assumption || reflexivity|]).
    now injection H as <-.
Qed.

(** Both patterns start with a backtick and consume it. *)
Lemma match3_backtick s m :
  match_at BIGQUERY_TABLE_PATTERN s = Some m ->
  exists s', s = String "`" s' /\ length (m_rest m) < length s.
Proof.
  intros H. apply match3_inv in H as
    [(p & d & t & rest & _ & _ & _ & -> & ->)|(d & t & rest & _ & _ & -> & ->)].
  - rewrite ref3_app. eexists. split; [reflexivity|]. rewrite <- ref3_app.
    rewrite StrFacts.length_append. unfold ref3. simpl. lia.
  - rewrite ref2_app. eexists. split; [reflexivity|]. rewrite <- ref2_app.
    rewrite StrFacts.length_append. unfold ref2. simpl. lia.
Qed.

Lemma match2_backtick s m :
  match_at BIGQUERY_TWO_PART_PATTERN s = Some m ->
  exists s', s = String "`" s' /\ length (m_rest m) < length s.
Proof.
  intros H. apply match2_inv in H as (d & t & rest & _ & _ & -> & ->).
  rewrite ref2_app. eexists. split; [reflexivity|]. rewrite <- ref2_app.
  rewrite StrFacts.length_append. unfold ref2. simpl. lia.
Qed.

End MatchFacts.

(** ** Substitution with a pattern that starts with a backtick *)

Module SubFacts.
Import Re ReFacts.

Section Anchored.
Variable r : regex.
Variable repl : rmatch -> string.

(** Every match starts with a backtick and consumes it. *)
Hypothesis anchored : forall s m,
  match_at r s = Some m ->
  exists s', s = String "`" s' /\ length (m_rest m) < length s.

Lemma no_match_nil : match_at r "" = None.
Proof.
  destruct (match_at r "") as [m|] eqn:E; [|reflexivity].
  apply anchored in E as (s' & E & _). discriminate.
Qed.

Lemma no_match_other c s : c <> "`"%char -> match_at r (String c s) = None.
Proof.
  intros Hc. destruct (match_at r (String c s)) as [m|] eqn:E; [|reflexivity].
  apply anchored in E as (s' & E & _). congruence.
Qed.

Lemma sub_match s m :
  match_at r s = Some m -> sub r repl s = repl m ++ sub r repl (m_rest m).
Proof.
  intros H. apply sub_hit; [assumption|].
  now apply anchored in H as (s' & _ & H).
Qed.

(** Text without a backtick is copied. *)
Lemma sub_prefix pre s :
  Str.mem "`" pre = false -> sub r repl (pre ++ s) = pre ++ sub r repl s.
Proof.
  induction pre as [|c pre IH]; simpl; [reflexivity|].
  intros H. apply orb_false_elim in H as [Hc Hpre].
  apply Ascii.eqb_neq in Hc.
  rewrite sub_skip by now apply no_match_other.
  now rewrite IH.
Qed.

Lemma sub_id s : Str.mem "`" s = false -> sub r repl s = s.
Proof.
  intros H. rewrite <- (StrFacts.append_nil_r s) at 1.
  rewrite sub_prefix by assumption.
  now rewrite (sub_nil _ _ no_match_nil), StrFacts.append_nil_r.
Qed.

End Anchored.

(** [replace] of the backtick. *)
Lemma replace_append old new a b :
  Py.replace_char old new (a ++ b) =
  Py.replace_char old new a ++ Py.replace_char old new b.
Proof.
  induction a as [|c a IH]; simpl; [reflexivity|].
  destruct (c =? old)%char; rewrite IH; simpl;
    [now rewrite StrFacts.append_assoc | reflexivity].
Qed.

Lemma replace_id old new s :
  Str.mem old s = false -> Py.replace_char old new s = s.
Proof.
  induction s as [|c s IH]; simpl; [reflexivity|].
  intros H. apply orb_false_elim in H as [Hc Hs]. rewrite Hc. now rewrite IH.
Qed.

Lemma replace_clears old new s :
  Str.mem old new = false -> Str.mem old (Py.replace_char old new s) = false.
Proof.
  intros Hnew. induction s as [|c s IH]; simpl; [reflexivity|].
  destruct (c =? old)%char eqn:E.
  - now rewrite StrFacts.mem_append, Hnew, IH.
  - simpl. now rewrite E, IH.
Qed.

End SubFacts.

(** ** [translate_bigquery_sql] *)

Module TranslateFacts.
Import Re ReFacts PatternFacts MatchFacts SubFacts.

Lemma all_not_mem p c s :
  (forall x, p x = true -> x <> c) -> Str.all p s = true -> Str.mem c s = false.
Proof.
  intros Hp. induction s as [|x s IH]; simpl; [reflexivity|].
  intros H. apply andb_prop in H as [Hx Hs].
  apply Hp, Ascii.eqb_neq in Hx. now rewrite Hx, IH.
Qed.

Lemma word_no_backtick s : Str.all word_char s = true -> Str.mem "`" s = false.
Proof. apply all_not_mem. intros x Hx. apply word_char_not in Hx. tauto. Qed.

Lemma project_no_backtick s :
  Str.all project_char s = true -> Str.mem "`" s = false.
Proof. apply all_not_mem. intros x Hx. apply project_char_not in Hx. tauto. Qed.

Lemma quoted_pair_no_backtick d t :
  Str.mem "`" d = false -> Str.mem "`" t = false ->
  Str.mem "`" (quoted_pair d t) = false.
Proof.
  intros Hd Ht. unfold quoted_pair. simpl.
  rewrite StrFacts.mem_append, Hd. simpl.
  now rewrite StrFacts.mem_append, Ht.
Qed.

Lemma replace_three_groups p d t rest :
  replace_three_part (mk_match (three_groups p d t) rest) = quoted_pair d t.
Proof. reflexivity. Qed.

Lemma replace_three_two_groups d t rest :
  replace_three_part (mk_match (two_groups d t) rest) = quoted_pair d t.
Proof. reflexivity. Qed.

Lemma replace_two_groups dflt d t rest :
  d <> "" ->
  replace_two_part dflt (mk_match (two_groups d t) rest) = quoted_pair d t.
Proof. intros Hd. destruct d; [congruence | reflexivity]. Qed.

Lemma translate_eq sql dflt :
  translate_bigquery_sql sql dflt = unquote (sub2 dflt (sub3 sql)).
Proof. reflexivity. Qed.

(** A backtick-free prefix, then text that pass 1 rewrites to the
    backtick-free [q]: the whole translation keeps the prefix, puts [q], and
    goes on with what follows. *)
Lemma translate_step pre x q post dflt :
  Str.mem "`" pre = false -> Str.mem "`" q = false ->
  sub3 (x ++ post) = q ++ sub3 post ->
  translate_bigquery_sql (pre ++ x ++ post) dflt =
  pre ++ q ++ translate_bigquery_sql post dflt.
Proof.
  intros Hpre Hq Hx. rewrite !translate_eq. unfold sub3 in *.
  rewrite (sub_prefix _ _ match3_backtick) by assumption.
  rewrite Hx. unfold sub2.
  rewrite !(sub_prefix _ _ match2_backtick) by assumption.
  unfold unquote. rewrite !replace_append.
  now rewrite !replace_id by assumption.
Qed.

Lemma translate_ref3 pre p d t post dflt :
  Str.mem "`" pre = false ->
  segment project_char p -> segment word_char d -> segment word_char t ->
  translate_bigquery_sql (pre ++ ref3 p d t ++ post) dflt =
  pre ++ quoted_pair d t ++ translate_bigquery_sql post dflt.
Proof.
  intros Hpre Hp Hd Ht. apply translate_step; [assumption| |].
  - apply quoted_pair_no_backtick; apply word_no_backtick; [apply Hd|apply Ht].
  - unfold sub3.
    rewrite (sub_match _ _ match3_backtick _ _ (match3_intro3 p d t post Hp Hd Ht)).
    reflexivity.
Qed.

Lemma translate_ref2 pre d t post dflt :
  Str.mem "`" pre = false ->
  segment word_char d -> segment word_char t ->
  translate_bigquery_sql (pre ++ ref2 d t ++ post) dflt =
  pre ++ quoted_pair d t ++ translate_bigquery_sql post dflt.
Proof.
  intros Hpre Hd Ht. apply translate_step; [assumption| |].
  - apply quoted_pair_no_backtick; apply word_no_backtick; [apply Hd|apply Ht].
  - unfold sub3.
    rewrite (sub_match _ _ match3_backtick _ _ (match3_intro2 d t post Hd Ht)).
    reflexivity.
Qed.

(** Text without a backtick is left as it is. *)
Lemma translate_id s dflt :
  Str.mem "`" s = false -> translate_bigquery_sql s dflt = s.
Proof.
  intros H. rewrite translate_eq. unfold sub3, sub2, unquote.
  rewrite (sub_id _ _ match3_backtick) by assumption.
  rewrite (sub_id _ _ match2_backtick) by assumption.
  now apply replace_id.
Qed.

Lemma translate_no_backtick sql dflt :
  Str.mem "`" (translate_bigquery_sql sql dflt) = false.
Proof. rewrite translate_eq. now apply replace_clears. Qed.

End TranslateFacts.

(** C1. A backtick-quoted [project.dataset.table], with a project of
    letters, digits, underscores and hyphens and a dataset and a table of
    letters, digits and underscores, is rewritten to the dataset between
    double quotes, a dot, and the table between double quotes: the project
    is dropped.  A backtick-quoted [dataset.table] is rewritten to the same
    text.  This holds after any text without a backtick and before any
    text, which is translated on its own.  In particular the two examples
    of the specification.  The double quote is written as the character of
    code 34. *)
Theorem translate_rewrites_references :
  (forall pre project dataset table post default_dataset,
      Str.mem "`" pre = false ->
      segment project_char project ->
      segment word_char dataset -> segment word_char table ->
      translate_bigquery_sql (pre ++ ref3 project dataset table ++ post)
                             default_dataset =
      pre ++ String "034" dataset ++ String "034" "."
          ++ String "034" table ++ String "034" ""
          ++ translate_bigquery_sql post default_dataset
      /\
      translate_bigquery_sql (pre ++ ref2 dataset table ++ post)
                             default_dataset =
      pre ++ String "034" dataset ++ String "034" "."
          ++ String "034" table ++ String "034" ""
          ++ translate_bigquery_sql post default_dataset)
  /\ translate_bigquery_sql "SELECT * FROM `proj.ds.tbl`" "default" =
     "SELECT * FROM " ++ String "034" "ds" ++ String "034" "."
                      ++ String "034" "tbl" ++ String "034" ""
  /\ translate_bigquery_sql "SELECT * FROM `ds.tbl`" "default" =
     "SELECT * FROM " ++ String "034" "ds" ++ String "034" "."
                      ++ String "034" "tbl" ++ String "034" "".
Proof.
  split; [|split; reflexivity].
  intros pre p d t post dflt Hpre Hp Hd Ht.
  assert (E : forall rest,
             String "034" d ++ String "034" "." ++ String "034" t
               ++ String "034" "" ++ rest
             = quoted_pair d t ++ rest).
  { intros rest. unfold quoted_pair, Py.dquote. simpl.
    rewrite StrFacts.append_assoc. simpl.
    rewrite StrFacts.append_assoc. reflexivity. }
  rewrite E. split.
  - now apply TranslateFacts.translate_ref3.
  - now apply TranslateFacts.translate_ref2.
Qed.

(** C2. Translating a translation changes nothing, and a translation holds
    no backtick. *)
Theorem translate_idempotent (sql default_dataset : string) :
  translate_bigquery_sql (translate_bigquery_sql sql default_dataset)
                         default_dataset
  = translate_bigquery_sql sql default_dataset
  /\ Str.mem Py.backtick (translate_bigquery_sql sql default_dataset) = false.
Proof.
  split.
  - apply TranslateFacts.translate_id, TranslateFacts.translate_no_backtick.
  - apply TranslateFacts.translate_no_backtick.
Qed.

(** ** References that neither pattern matches *)

Module HyphenFacts.
Import Re ReFacts PatternFacts MatchFacts SubFacts TranslateFacts.

(** A run of a class followed by a character outside it splits a text in
    one way only. *)
Lemma run_unique p x : forall y c1 c2 X Y,
  Str.all p x = true -> Str.all p y = true -> p c1 = false -> p c2 = false ->
  x ++ String c1 X = y ++ String c2 Y -> x = y /\ c1 = c2 /\ X = Y.
Proof.
  induction x as [|a x IH]; intros [|b y] c1 c2 X Y Hx Hy H1 H2 E;
    simpl in *.
  - injection E as -> ->. auto.
  - injection E as -> _. apply andb_prop in Hy as [Hb _]. congruence.
  - injection E as -> _. apply andb_prop in Hx as [Ha _]. congruence.
  - injection E as -> E. apply andb_prop in Hx as [_ Hx].
    apply andb_prop in Hy as [_ Hy].
    destruct (IH y c1 c2 X Y Hx Hy H1 H2 E) as (-> & -> & ->). auto.
Qed.

(** A match of either pattern holds a closing backtick. *)
Lemma match3_closing s' m :
  match_at BIGQUERY_TABLE_PATTERN (String "`" s') = Some m ->
  Str.mem "`" s' = true.
Proof.
  intros H. apply match3_inv in H as
    [(p & d & t & rest & _ & _ & _ & E & _)|(d & t & rest & _ & _ & E & _)].
  - rewrite ref3_app in E. injection E as ->.
    rewrite !StrFacts.mem_append. simpl. rewrite !StrFacts.mem_append. simpl.
    rewrite !StrFacts.mem_append. simpl. now rewrite !orb_true_r.
  - rewrite ref2_app in E. injection E as ->.
    rewrite !StrFacts.mem_append. simpl. rewrite !StrFacts.mem_append. simpl.
    now rewrite !orb_true_r.
Qed.

Lemma match2_closing s' m :
  match_at BIGQUERY_TWO_PART_PATTERN (String "`" s') = Some m ->
  Str.mem "`" s' = true.
Proof.
  intros H. apply match2_inv in H as (d & t & rest & _ & _ & E & _).
  rewrite ref2_app in E. injection E as ->.
  rewrite !StrFacts.mem_append. simpl. rewrite !StrFacts.mem_append. simpl.
  now rewrite !orb_true_r.
Qed.

Lemma no_dot_project x : project_char x = true -> (x =? ".")%char = false.
Proof. intros H. apply project_char_not in H as (H & _). now apply Ascii.eqb_neq. Qed.

Lemma no_dot_word x : word_char x = true -> (x =? ".")%char = false.
Proof. intros H. apply word_char_not in H as (H & _). now apply Ascii.eqb_neq. Qed.

Lemma word_no_hyphen s : Str.all word_char s = true -> Str.mem "-" s = false.
Proof. apply all_not_mem. intros x Hx. apply word_char_not in Hx. tauto. Qed.

(** A two-segment reference whose first segment holds a hyphen. *)
Lemma hyphen_no_match3 a b post :
  segment project_char a -> Str.mem "-" a = true -> segment word_char b ->
  match_at BIGQUERY_TABLE_PATTERN (ref2 a b ++ post) = None.
Proof.
  intros [_ Ha] Hh [_ Hb].
  destruct (match_at _ _) as [m|] eqn:E; [exfalso|reflexivity].
  apply match3_inv in E as
    [(p & d & t & rest & [_ Hp] & [_ Hd] & _ & E & _)
    |(d & t & rest & [_ Hd] & _ & E & _)].
  - rewrite ref2_app, ref3_app in E. injection E as E.
    apply (run_unique project_char) in E as (<- & _ & E);
      try assumption; try reflexivity.
    apply (run_unique word_char) in E as (_ & E & _);
      try assumption; try reflexivity.
    discriminate.
  - rewrite !ref2_app in E. injection E as E.
    apply (run_unique project_char) in E as (<- & _ & E);
      try assumption; try reflexivity.
    + apply word_no_hyphen in Hd. congruence.
    + now apply all_word_project.
Qed.

Lemma hyphen_no_match2 a b post :
  segment project_char a -> Str.mem "-" a = true -> segment word_char b ->
  match_at BIGQUERY_TWO_PART_PATTERN (ref2 a b ++ post) = None.
Proof.
  intros [_ Ha] Hh [_ Hb].
  destruct (match_at _ _) as [m|] eqn:E; [exfalso|reflexivity].
  apply match2_inv in E as (d & t & rest & [_ Hd] & _ & E & _).
  rewrite !ref2_app in E. injection E as E.
  apply (run_unique project_char) in E as (<- & _ & E);
    try assumption; try reflexivity.
  - apply word_no_hyphen in Hd. congruence.
  - now apply all_word_project.
Qed.

End HyphenFacts.


(** ** The second pass finds nothing after the first *)

Module PassFacts.
Import Re ReFacts PatternFacts MatchFacts SubFacts TranslateFacts.

Lemma free2_nil : free2 "".
Proof.
  intros [|c u] v E; [|discriminate]. simpl in E. subst v.
  apply (no_match_nil _ match2_backtick).
Qed.

Lemma free2_cons c t :
  match_at BIGQUERY_TWO_PART_PATTERN (String c t) = None -> free2 t ->
  free2 (String c t).
Proof.
  intros Hc Ht [|x u] v E; simpl in E.
  - now subst v.
  - injection E as _ E. now apply (Ht u v).
Qed.

Lemma free2_tail c t : free2 (String c t) -> free2 t.
Proof. intros H u v E. apply (H (String c u) v). simpl. now rewrite E. Qed.

Lemma free2_prefix q t :
  Str.mem "`" q = false -> free2 t -> free2 (q ++ t).
Proof.
  induction q as [|c q IH]; simpl; [easy|].
  intros H Ht. apply orb_false_elim in H as [Hc Hq].
  apply free2_cons; [|now apply IH].
  apply (no_match_other _ match2_backtick). now apply Ascii.eqb_neq.
Qed.

(** Where the pattern matches nowhere, the substitution copies the text. *)
Lemma sub2_free dflt t : free2 t -> sub2 dflt t = t.
Proof.
  unfold sub2. induction t as [|c t IH]; intros H.
  - apply sub_nil, (no_match_nil _ match2_backtick).
  - rewrite sub_skip by (apply (H "" (String c t)); reflexivity).
    f_equal. apply IH. now apply free2_tail in H.
Qed.

Lemma word_no_dquote s :
  Str.all word_char s = true -> Str.mem Py.dquote s = false.
Proof. apply all_not_mem. intros x Hx. apply word_char_not in Hx. tauto. Qed.

Lemma replacement_shape s m :
  match_at BIGQUERY_TABLE_PATTERN s = Some m ->
  exists q, replace_three_part m = String Py.dquote q
            /\ Str.mem "`" (replace_three_part m) = false.
Proof.
  intros H. apply match3_inv in H as
    [(p & d & t & rest & _ & [_ Hd] & [_ Ht] & _ & ->)
    |(d & t & rest & [_ Hd] & [_ Ht] & _ & ->)].
  - rewrite replace_three_groups. eexists. split; [reflexivity|].
    apply quoted_pair_no_backtick; now apply word_no_backtick.
  - rewrite replace_three_two_groups. eexists. split; [reflexivity|].
    apply quoted_pair_no_backtick; now apply word_no_backtick.
Qed.

(** Up to the first backtick of its output, the first pass has copied its
    input, if no double quote stands there: a replacement starts with
    one. *)
Lemma sub3_first_backtick s : forall w rest,
  Str.mem "`" w = false -> Str.mem Py.dquote w = false ->
  sub3 s = w ++ String "`" rest -> exists y, s = w ++ String "`" y.
Proof.
  unfold sub3. induction s as [|c s IH]; intros w rest Hw Hq E.
  - rewrite sub_nil in E by apply (no_match_nil _ match3_backtick).
    destruct w; discriminate.
  - destruct (match_at BIGQUERY_TABLE_PATTERN (String c s)) as [m|] eqn:Hm.
    + exfalso. rewrite (sub_match _ _ match3_backtick _ _ Hm) in E.
      apply replacement_shape in Hm as (q & -> & _). simpl in E.
      destruct w as [|x w]; simpl in *; injection E as E _.
      * discriminate.
      * subst x. now rewrite Ascii.eqb_refl in Hq.
    + rewrite sub_skip in E by assumption.
      destruct w as [|x w]; simpl in *; injection E as -> E.
      * now exists s.
      * apply orb_false_elim in Hw as [_ Hw].
        apply orb_false_elim in Hq as [_ Hq].
        destruct (IH w rest Hw Hq E) as (y & ->). now exists y.
Qed.

(** The output of the first pass holds no two-segment reference. *)
Lemma sub3_free2 s : free2 (sub3 s).
Proof.
  remember (length s) as n eqn:Hn. revert s Hn.
  induction n as [n IH] using lt_wf_ind. intros s ->. unfold sub3.
  destruct (match_at BIGQUERY_TABLE_PATTERN s) as [m|] eqn:Hm.
  - rewrite (sub_match _ _ match3_backtick _ _ Hm).
    pose proof (match3_backtick _ _ Hm) as (_ & _ & Hlt).
    apply replacement_shape in Hm as (_ & _ & Hq).
    apply free2_prefix; [assumption|].
    now apply (IH (length (m_rest m))).
  - destruct s as [|c s].
    + rewrite sub_nil by assumption. apply free2_nil.
    + rewrite sub_skip by assumption.
      apply free2_cons; [|apply (IH (length s)); simpl; lia].
      destruct (match_at BIGQUERY_TWO_PART_PATTERN
                  (String c (sub BIGQUERY_TABLE_PATTERN replace_three_part s)))
        as [m2|] eqn:H2; [exfalso|reflexivity].
      apply match2_inv in H2 as (d & t & rest & Hd & Ht & E & _).
      rewrite ref2_app in E. injection E as -> E.
      assert (E' : sub3 s = (d ++ String "." t) ++ String "`" rest).
      { unfold sub3. rewrite E. now rewrite StrFacts.append_assoc. }
      apply sub3_first_backtick in E' as (y & ->).
      * pose proof (match3_intro2 d t y Hd Ht) as H3.
        rewrite ref2_app in H3.
        rewrite StrFacts.append_assoc in Hm. simpl in Hm. congruence.
      * rewrite StrFacts.mem_append. simpl.
        rewrite (word_no_backtick d) by apply Hd.
        now rewrite (word_no_backtick t) by apply Ht.
      * rewrite StrFacts.mem_append. simpl.
        rewrite (word_no_dquote d) by apply Hd.
        now rewrite (word_no_dquote t) by apply Ht.
Qed.

Lemma dataset_group_two s m :
  match_at BIGQUERY_TWO_PART_PATTERN s = Some m ->
  exists d, d <> "" /\ group m "dataset" = Some d.
Proof.
  intros H. apply match2_inv in H as (d & t & rest & [Hd _] & _ & _ & ->).
  now exists d.
Qed.

Lemma dataset_group_three s m :
  match_at BIGQUERY_TABLE_PATTERN s = Some m ->
  exists d, d <> "" /\ group m "dataset" = Some d.
Proof.
  intros H. apply match3_inv in H as
    [(p & d & t & rest & _ & [Hd _] & _ & _ & ->)
    |(d & t & rest & [Hd _] & _ & _ & ->)]; now exists d.
Qed.

Lemma replace_two_part_default d1 d2 s m :
  match_at BIGQUERY_TWO_PART_PATTERN s = Some m ->
  replace_two_part d1 m = replace_two_part d2 m.
Proof.
  intros H. apply dataset_group_two in H as (d & Hd & E).
  unfold replace_two_part. rewrite E. destruct d; [congruence|reflexivity].
Qed.

End PassFacts.

(** C9. The translation does not depend on the default dataset.  The
    reasons: wherever the two-segment pattern matches, the three-segment
    pattern matches too, with the same groups and the same end, so after the
    first pass the second finds nothing and copies its input; and a match of
    either pattern always has a non-empty dataset group, so the fallback to
    the default dataset is never taken. *)
Theorem translate_ignores_default_dataset :
  (forall sql d1 d2,
      translate_bigquery_sql sql d1 = translate_bigquery_sql sql d2)
  /\ (forall s m,
         Re.match_at BIGQUERY_TWO_PART_PATTERN s = Some m ->
         Re.match_at BIGQUERY_TABLE_PATTERN s = Some m)
  /\ (forall sql d,
         Re.sub BIGQUERY_TWO_PART_PATTERN (replace_two_part d)
                (Re.sub BIGQUERY_TABLE_PATTERN replace_three_part sql)
         = Re.sub BIGQUERY_TABLE_PATTERN replace_three_part sql)
  /\ (forall s m,
         Re.match_at BIGQUERY_TWO_PART_PATTERN s = Some m
         \/ Re.match_at BIGQUERY_TABLE_PATTERN s = Some m ->
         exists dataset,
           dataset <> "" /\ Re.group m "dataset" = Some dataset
           /\ forall d, or_default (Re.group m "dataset") d = dataset).
Proof.
  split; [|split; [|split]].
  - intros sql d1 d2. unfold translate_bigquery_sql. f_equal.
    apply ReFacts.sub_ext. intros s m.
    apply PassFacts.replace_two_part_default.
  - intros s m H.
    apply MatchFacts.match2_inv in H as (d & t & rest & Hd & Ht & -> & ->).
    now apply MatchFacts.match3_intro2.
  - intros sql d. apply PassFacts.sub2_free, PassFacts.sub3_free2.
  - intros s m [H|H].
    + apply PassFacts.dataset_group_two in H as (d & Hd & E).
      exists d. rewrite E. repeat split; try assumption.
      intros d'. destruct d; [congruence|reflexivity].
    + apply PassFacts.dataset_group_three in H as (d & Hd & E).
      exists d. rewrite E. repeat split; try assumption.
      intros d'. destruct d; [congruence|reflexivity].
Qed.

(** ** [sanitize_table_name] *)

Module SanitizeFacts.
Import Re ReFacts.

(** Substituting a one-character class is a map over the characters. *)
Lemma sub_cls_map q s :
  sub (Cls q) (fun _ => "_") s =
  Str.map (fun c => if q c then "_"%char else c) s.
Proof.
  induction s as [|c s IH]; rewrite sub_unfold; simpl; [reflexivity|].
  unfold match_at. simpl. destruct (q c); simpl.
  - destruct (Nat.ltb_spec (length s) (S (length s))) as [_|H]; [|lia].
    now rewrite IH.
  - now rewrite IH.
Qed.

Lemma map_map f g s : Str.map f (Str.map g s) = Str.map (fun c => f (g c)) s.
Proof. induction s as [|c s IH]; simpl; [reflexivity | now rewrite IH]. Qed.

Lemma substituted_map raw :
  substituted raw = Str.map (fun c => Py.lower_char (subst_char c)) raw.
Proof. unfold substituted, Py.lower. rewrite sub_cls_map. apply map_map. Qed.

Lemma lower_subst_ident c :
  ident_char (Py.lower_char (subst_char c)) = true.
Proof. destruct c as [[] [] [] [] [] [] [] []]; reflexivity. Qed.

Lemma isdigit_on_ident c :
  ident_char c = true -> Py.isdigit_char c = digit_char c.
Proof. destruct c as [[] [] [] [] [] [] [] []]; vm_compute; congruence. Qed.

Lemma all_map p f s :
  (forall c, p (f c) = true) -> Str.all p (Str.map f s) = true.
Proof.
  intros H. induction s as [|c s IH]; simpl; [reflexivity|].
  now rewrite H, IH.
Qed.

Lemma substituted_ident raw : Str.all ident_char (substituted raw) = true.
Proof. rewrite substituted_map. apply all_map, lower_subst_ident. Qed.

Lemma substituted_nil raw : substituted raw = "" <-> raw = "".
Proof.
  rewrite substituted_map. destruct raw; simpl; split; congruence.
Qed.

Lemma sanitize_eq raw :
  sanitize_table_name raw =
  match substituted raw with
  | "" => Py.Raise (Py.ValueError
                      ("Unable to create table name from: " ++ Py.repr raw))
  | String c _ =>
      Py.Ok (if Py.isdigit_char c then "t_" ++ substituted raw
             else substituted raw)
  end.
Proof. reflexivity. Qed.

End SanitizeFacts.

(** C4. Whenever [sanitize_table_name] succeeds, its result is made of
    lower-case letters, digits and underscores only and does not start with
    a digit: when the substituted, lower-cased text starts with a digit the
    result is that text after [t_], otherwise it is that text.  In
    particular [123abc] gives [t_123abc]. *)
Theorem sanitize_result_is_identifier :
  (forall raw_name name,
      sanitize_table_name raw_name = Py.Ok name ->
      Str.all ident_char name = true
      /\ head_in digit_char name = false
      /\ name = (if head_in digit_char (substituted raw_name)
                 then "t_" ++ substituted raw_name
                 else substituted raw_name))
  /\ sanitize_table_name "123abc" = Py.Ok "t_123abc".
Proof.
  split; [|reflexivity].
  intros raw name H. rewrite SanitizeFacts.sanitize_eq in H.
  pose proof (SanitizeFacts.substituted_ident raw) as Hid.
  destruct (substituted raw) as [|c s] eqn:E; [discriminate|].
  injection H as <-. simpl in Hid. apply andb_prop in Hid as [Hc Hs].
  rewrite (SanitizeFacts.isdigit_on_ident c Hc). simpl.
  destruct (digit_char c) eqn:Hd; simpl.
  - now rewrite Hc, Hs.
  - now rewrite Hc, Hs, Hd.
Qed.

(** C7. [sanitize_table_name] raises [ValueError] exactly when the
    substituted, lower-cased text is empty, which happens for the empty raw
    name only; the message ends with the [repr] of the raw name and so
    includes the raw name.  For every other raw name it returns a name.  The
    function is pure: it has no effect to leave behind. *)
Theorem sanitize_fails_on_empty_only (raw_name : string) :
  (substituted raw_name = "" <-> raw_name = "")
  /\ (substituted raw_name = "" ->
      exists msg,
        sanitize_table_name raw_name = Py.Raise (Py.ValueError msg)
        /\ msg = "Unable to create table name from: " ++ Py.repr raw_name
        /\ includes msg raw_name)
  /\ (substituted raw_name <> "" ->
      exists name, sanitize_table_name raw_name = Py.Ok name)
  /\ sanitize_table_name "" =
     Py.Raise (Py.ValueError "Unable to create table name from: ''").
Proof.
  split; [apply SanitizeFacts.substituted_nil|].
  split; [|split; [|reflexivity]].
  - intros E. rewrite SanitizeFacts.sanitize_eq, E. eexists.
    split; [reflexivity|]. split; [reflexivity|].
    apply (proj1 (SanitizeFacts.substituted_nil _)) in E. subst raw_name.
    now exists "Unable to create table name from: ''", "".
  - intros E. rewrite SanitizeFacts.sanitize_eq.
    destruct (substituted raw_name); [congruence|]. eexists. reflexivity.
Qed.

(** ** [register_parquet_tables] *)

Module RegisterFacts.

Lemma to_int_not_nil z : Z.to_int z <> Pos Nil /\ Z.to_int z <> Neg Nil.
Proof.
  split; intros E; pose proof (DecimalZ.of_to z) as O; rewrite E in O;
    simpl in O; subst z; discriminate.
Qed.

(** Distinct integers have distinct decimal texts. *)
Lemma str_of_int_inj a b : Py.str_of_int a = Py.str_of_int b -> a = b.
Proof.
  unfold Py.str_of_int. intros H. apply DecimalZ.to_int_inj.
  apply (f_equal NilZero.int_of_string) in H.
  rewrite !NilZero.isi in H by apply to_int_not_nil. congruence.
Qed.

Lemma append_inv_l (a b c : string) : a ++ b = a ++ c -> b = c.
Proof. induction a as [|x a IH]; simpl; [easy|]. intros [= H]. auto. Qed.

Lemma append_longer (a b : string) : a = a ++ b -> b = "".
Proof.
  intros H. apply (f_equal length) in H.
  rewrite StrFacts.length_append in H. destruct b; [reflexivity|].
  simpl in H. lia.
Qed.

Lemma candidate_one base : candidate base 1 = base.
Proof. reflexivity. Qed.

Lemma candidate_next base k :
  (1 <= k)%Z ->
  candidate base (k + 1) = base ++ "_" ++ Py.str_of_int (k + 1).
Proof.
  intros H. unfold candidate.
  destruct (Z.leb_spec (k + 1) 1); [lia|reflexivity].
Qed.

Lemma candidate_inj base j k :
  (1 <= j)%Z -> (1 <= k)%Z -> candidate base j = candidate base k -> j = k.
Proof.
  intros Hj Hk. unfold candidate.
  destruct (Z.leb_spec j 1), (Z.leb_spec k 1); intros E; try lia.
  - apply append_longer in E. discriminate.
  - symmetry in E. apply append_longer in E. discriminate.
  - apply append_inv_l in E. injection E as E. now apply str_of_int_inj.
Qed.

Lemma dict_mem_keys {V} k (d : Py.dict V) :
  Py.dict_mem k d = true <-> In k (Py.keys d).
Proof.
  unfold Py.dict_mem, Py.keys. rewrite existsb_exists, in_map_iff.
  split.
  - intros ((k', v) & Hin & E). apply String.eqb_eq in E. simpl in E.
    subst k'. now exists (k, v).
  - intros ((k', v) & E & Hin). simpl in E. subst k'. exists (k, v).
    split; [assumption|]. apply String.eqb_refl.
Qed.

Lemma dict_mem_false {V} k (d : Py.dict V) :
  Py.dict_mem k d = false <-> ~ In k (Py.keys d).
Proof.
  rewrite <- dict_mem_keys. destruct (Py.dict_mem k d); split; congruence.
Qed.

(** A new key goes last. *)
Lemma dict_set_fresh {V} k (v : V) d :
  ~ In k (Py.keys d) -> Py.dict_set k v d = (d ++ [(k, v)])%list.
Proof.
  induction d as [|[k' v'] d IH]; simpl; [reflexivity|].
  intros H. destruct (String.eqb_spec k' k) as [->|_]; [tauto|].
  rewrite IH; tauto.
Qed.

Lemma keys_app {V} (d1 d2 : Py.dict V) :
  Py.keys (d1 ++ d2)%list = (Py.keys d1 ++ Py.keys d2)%list.
Proof. apply map_app. Qed.

Section Loop.
Variable loaded : Py.dict Path.
Variable base : string.

(** What the loop returns, when it returns. *)
Lemma free_name_spec fuel : forall k name,
  (1 <= k)%Z ->
  free_name fuel loaded base k (candidate base k) = Some name ->
  exists k', (k <= k')%Z /\ name = candidate base k'
    /\ ~ In name (Py.keys loaded)
    /\ forall j, (k <= j < k')%Z -> In (candidate base j) (Py.keys loaded).
Proof.
  induction fuel as [|fuel IH]; intros k name Hk H; cbn [free_name] in H;
    destruct (Py.dict_mem (candidate base k) loaded) eqn:M;
    try discriminate.
  - injection H as <-. exists k. apply dict_mem_false in M.
    repeat split; try assumption; lia.
  - rewrite <- candidate_next in H by assumption.
    apply IH in H as (k' & Hk' & -> & Hfree & Hbound); [|lia].
    exists k'. repeat split; try assumption; try lia.
    intros j Hj. destruct (Z.eq_dec j k) as [->|Hne].
    + now apply dict_mem_keys.
    + apply Hbound. lia.
  - injection H as <-. exists k. apply dict_mem_false in M.
    repeat split; try assumption; lia.
Qed.

(** The loop returns: every turn uses up one of the bound names, and
    [fuel] is at least their number. *)
Lemma free_name_total fuel : forall rem k,
  (1 <= k)%Z -> List.length rem <= fuel ->
  (forall j, (k <= j)%Z -> In (candidate base j) (Py.keys loaded) ->
             In (candidate base j) rem) ->
  exists name, free_name fuel loaded base k (candidate base k) = Some name.
Proof.
  induction fuel as [|fuel IH]; intros rem k Hk Hlen Hrem; cbn [free_name];
    destruct (Py.dict_mem (candidate base k) loaded) eqn:M;
    try (eexists; reflexivity).
  - apply dict_mem_keys in M. apply Hrem in M; [|lia].
    destruct rem; [contradiction|simpl in Hlen; lia].
  - apply dict_mem_keys in M. pose proof (Hrem k (Z.le_refl k) M) as Hin.
    rewrite <- candidate_next by assumption.
    apply (IH (remove string_dec (candidate base k) rem)); [lia| |].
    + pose proof (remove_length_lt string_dec rem _ Hin). lia.
    + intros j Hj Hb. apply in_in_remove.
      * intros E. apply candidate_inj in E; lia.
      * apply Hrem; [lia|assumption].
Qed.

Lemma free_name_first_unused :
  exists name,
    free_name (List.length loaded) loaded base 1 base = Some name
    /\ first_unused (Py.keys loaded) base name.
Proof.
  destruct (free_name_total (List.length loaded) (Py.keys loaded) 1)
    as (name & H); [lia | unfold Py.keys; now rewrite length_map | auto |].
  rewrite candidate_one in H. exists name. split; [assumption|].
  rewrite <- (candidate_one base) in H at 2.
  apply free_name_spec in H as (k' & Hk' & -> & Hfree & Hbound); [|lia].
  exists k'. auto.
Qed.

End Loop.

(** [sorted] sorts. *)
Lemma path_ltb_asym p q : path_ltb p q = true -> path_ltb q p = false.
Proof.
  unfold path_ltb, String.ltb.
  rewrite (String.compare_antisym (path_dir p) (path_dir q)).
  rewrite (String.compare_antisym (path_name p) (path_name q)).
  destruct (String.compare (path_dir q) (path_dir p));
    destruct (String.compare (path_name q) (path_name p)); simpl; congruence.
Qed.

Lemma insert_sorted_perm x l : Permutation (x :: l) (insert_sorted x l).
Proof.
  induction l as [|y l IH]; simpl; [reflexivity|].
  destruct (path_ltb y x); [|reflexivity].
  rewrite perm_swap. now apply perm_skip.
Qed.

Lemma sorted_perm l : Permutation l (sorted l).
Proof.
  induction l as [|x l IH]; simpl; [constructor|].
  rewrite <- insert_sorted_perm. now apply perm_skip.
Qed.

Lemma insert_sorted_hd x y l :
  path_le y x -> HdRel path_le y l -> HdRel path_le y (insert_sorted x l).
Proof.
  intros Hyx [|z l' Hyz]; simpl; [now constructor|].
  destruct (path_ltb z x); now constructor.
Qed.

Lemma insert_sorted_sorted x l :
  Sorted path_le l -> Sorted path_le (insert_sorted x l).
Proof.
  induction 1 as [|y l Hs IH Hhd]; simpl; [repeat constructor|].
  destruct (path_ltb y x) eqn:E.
  - constructor; [assumption|].
    apply insert_sorted_hd; [|assumption]. now apply path_ltb_asym.
  - constructor; [now constructor|]. now constructor.
Qed.

Lemma sorted_sorted l : Sorted path_le (sorted l).
Proof.
  induction l as [|x l IH]; simpl; [constructor|].
  now apply insert_sorted_sorted.
Qed.

(** The files that [glob] finds have a name, and so a stem that the
    sanitizer accepts. *)
Lemma endswith_nonempty suffix s :
  suffix <> "" -> Str.endswith suffix s = true -> s <> "".
Proof.
  intros Hs H ->. destruct suffix; [congruence|discriminate].
Qed.

Lemma glob_named env dir :
  Forall (fun f => path_name f <> "") (glob env dir ".parquet").
Proof.
  unfold glob. apply Forall_forall. intros f Hf.
  apply in_map_iff in Hf as (n & <- & Hn). apply filter_In in Hn as [_ Hn].
  simpl. now apply (endswith_nonempty ".parquet").
Qed.

Lemma stem_nonempty f : path_name f <> "" -> stem f <> "".
Proof.
  unfold stem. intros H. destruct (Str.rindex "." (path_name f)) as [i|];
    [|assumption].
  destruct i as [|i]; [assumption|].
  destruct (_ && _); [|assumption].
  destruct (path_name f); [congruence|discriminate].
Qed.

Lemma sanitize_ok raw :
  raw <> "" -> exists name, sanitize_table_name raw = Py.Ok name.
Proof.
  intros H. rewrite SanitizeFacts.sanitize_eq.
  destruct (substituted raw) eqn:E.
  - apply (proj1 (SanitizeFacts.substituted_nil raw)) in E. contradiction.
  - eexists. reflexivity.
Qed.

(** The loop over the files answers: one turn of the [while] loop per
    bound name is enough. *)
Lemma register_loop_total env dataset files : forall t loaded,
  Forall (fun f => path_name f <> "") files ->
  exists t' r, register_loop env dataset files t loaded = Some (t', r).
Proof.
  induction files as [|f files IH]; intros t loaded Hnames.
  - now exists t, (Py.Ok loaded).
  - inversion Hnames as [|? ? Hf Hfiles]; subst.
    destruct (sanitize_ok (stem f) (stem_nonempty f Hf)) as (base & Hbase).
    destruct (free_name_first_unused loaded base) as (name & Hname & _).
    cbn [register_loop]. rewrite Hbase, Hname. unfold run.
    destruct (execute env _ _); cbv beta iota; [|eauto].
    destruct (execute env _ (mirror_view_sql dataset name)); cbv beta iota;
      [|eauto].
    now apply IH.
Qed.

(** The loop over the files: what a mapping it returns holds. *)
Lemma register_loop_result env dataset files : forall t loaded t' tables,
  NoDup (Py.keys loaded) ->
  register_loop env dataset files t loaded = Some (t', Py.Ok tables) ->
  exists added,
    tables = (loaded ++ added)%list
    /\ NoDup (Py.keys (loaded ++ added)%list)
    /\ List.map snd added = files
    /\ forall pre name file post,
         added = (pre ++ (name, file) :: post)%list ->
         exists base,
           sanitize_table_name (stem file) = Py.Ok base
           /\ first_unused (Py.keys (loaded ++ pre)%list) base name.
Proof.
  induction files as [|f files IH]; intros t loaded t' tables Hnd H;
    cbn [register_loop] in H.
  - injection H as <- <-. exists []. rewrite app_nil_r.
    repeat split; try assumption.
    intros [|? ?] ? ? ? E; discriminate.
  - destruct (sanitize_table_name (stem f)) as [base|e] eqn:Hbase;
      [|discriminate].
    destruct (free_name_first_unused loaded base) as (name & Hname & Hfirst).
    rewrite Hname in H.
    assert (Hfree : ~ In name (Py.keys loaded)).
    { destruct Hfirst as (k & _ & _ & Hk & _). exact Hk. }
    unfold run in H.
    destruct (execute env _ _); [|discriminate].
    destruct (execute env _ _); [|discriminate].
    rewrite dict_set_fresh in H by assumption.
    apply IH in H as (added & -> & Hnd' & Hsnd & Hspec).
    + exists ((name, f) :: added).
      rewrite <- app_assoc in Hnd'. simpl in Hnd'.
      split; [now rewrite <- app_assoc|]. split; [assumption|]. split.
      * simpl. now rewrite Hsnd.
      * intros pre n fl post E. destruct pre as [|x pre]; simpl in E.
        -- injection E as <- <- _. exists base. rewrite app_nil_r. auto.
        -- injection E as <- E. apply Hspec in E as (b & Hb & Hu).
           exists b. split; [assumption|].
           now rewrite <- app_assoc in Hu.
    + rewrite keys_app. simpl. apply NoDup_app. repeat split; try assumption.
      * repeat constructor. simpl. tauto.
      * intros x Hx [<-|[]]. contradiction.
Qed.

Lemma compare_refl s : String.compare s s = Eq.
Proof.
  induction s as [|c s IH]; simpl; [reflexivity|].
  unfold Ascii.compare. rewrite N.compare_refl. exact IH.
Qed.

(** The directory of the specification's example. *)
Lemma register_two_files env t data_dir dataset t' tables :
  listdir env data_dir = ["a.parquet"; "A.parquet"] ->
  register_parquet_tables env t data_dir dataset = Some (t', Py.Ok tables) ->
  tables = [("a", mk_path data_dir "A.parquet");
            ("a_2", mk_path data_dir "a.parquet")].
Proof.
  intros Hl H. unfold register_parquet_tables, glob in H. rewrite Hl in H.
  change (List.filter (Str.endswith ".parquet") ["a.parquet"; "A.parquet"])
    with ["a.parquet"; "A.parquet"] in H.
  cbn [List.map sorted insert_sorted] in H.
  unfold path_ltb in H. cbn [path_dir path_name] in H.
  rewrite compare_refl in H.
  change (String.ltb "A.parquet" "a.parquet") with true in H. cbv iota in H.
  unfold run in H. destruct (execute env _ _); [|discriminate].
  cbn [register_loop] in H.
  change (sanitize_table_name (stem (mk_path data_dir "A.parquet")))
    with (Py.Ok (A:=string) "a") in H.
  cbn [free_name List.length Py.dict_mem existsb] in H.
  unfold run in H.
  destruct (execute env _ _); [|discriminate].
  destruct (execute env _ _); [|discriminate].
  cbn [Py.dict_set register_loop] in H.
  change (sanitize_table_name (stem (mk_path data_dir "a.parquet")))
    with (Py.Ok (A:=string) "a") in H.
  cbn -[create_view_sql mirror_view_sql execute] in H.
  destruct (execute env _ _); [|discriminate].
  destruct (execute env _ _); [|discriminate].
  now injection H as _ <-.
Qed.

End RegisterFacts.

(** C3. [register_parquet_tables] always answers: the renaming loop
    ends for every file.  Whenever it returns a mapping, [glob] has found at
    least one parquet file, the table names of the mapping are pairwise
    distinct, its files, in insertion order, are the discovered files in
    sorted path order, and every file has the first free candidate for its
    sanitized (so lower-cased) stem: the stem itself, or else the stem with
    the least suffix [_2], [_3], ... that is not bound yet.  In particular
    a directory holding [a.parquet] and [A.parquet] gives the names [a] (for
    [A.parquet], which sorts first) and [a_2]. *)
Theorem register_names_unique_and_ordered :
  (forall env t data_dir dataset,
      exists t' r,
        register_parquet_tables env t data_dir dataset = Some (t', r))
  /\ (forall env t data_dir dataset t' tables,
         register_parquet_tables env t data_dir dataset
           = Some (t', Py.Ok tables) ->
         glob env data_dir ".parquet" <> []
         /\ NoDup (Py.keys tables)
         /\ List.map snd tables = sorted (glob env data_dir ".parquet")
         /\ Sorted path_le (List.map snd tables)
         /\ Permutation (glob env data_dir ".parquet") (List.map snd tables)
         /\ named_in_order tables)
  /\ (forall env t data_dir dataset t' tables,
         listdir env data_dir = ["a.parquet"; "A.parquet"] ->
         register_parquet_tables env t data_dir dataset
           = Some (t', Py.Ok tables) ->
         tables = [("a", mk_path data_dir "A.parquet");
                   ("a_2", mk_path data_dir "a.parquet")]).
Proof.
  split; [|split; [|apply RegisterFacts.register_two_files]].
  - intros env t data_dir dataset. unfold register_parquet_tables.
    pose proof (RegisterFacts.sorted_perm (glob env data_dir ".parquet"))
      as Hp.
    pose proof (RegisterFacts.glob_named env data_dir) as Hn.
    apply (Permutation_Forall Hp) in Hn.
    destruct (sorted (glob env data_dir ".parquet")) as [|f files];
      [eauto|].
    unfold run. destruct (execute env _ _); [|eauto].
    now apply RegisterFacts.register_loop_total.
  - intros env t data_dir dataset t' tables H.
    unfold register_parquet_tables in H.
    pose proof (RegisterFacts.sorted_perm (glob env data_dir ".parquet"))
      as Hp.
    pose proof (RegisterFacts.sorted_sorted (glob env data_dir ".parquet"))
      as Hs.
    destruct (sorted (glob env data_dir ".parquet")) as [|f files] eqn:E;
      [discriminate|].
    unfold run in H. destruct (execute env _ _); [|discriminate].
    apply RegisterFacts.register_loop_result in H
      as (added & -> & Hnd & Hsnd & Hspec); [|constructor].
    simpl in Hnd |- *. rewrite Hsnd. split.
    + intros E0. rewrite E0 in Hp. apply Permutation_nil in Hp.
      discriminate.
    + do 4 (split; [assumption || reflexivity|]). exact Hspec.
Qed.

Lemma register_names_unique_and_ordered_witness :
  glob (world_of ["b.parquet"; "B.parquet"; "notes.txt"]) "data" ".parquet"
    <> []
  /\ NoDup (Py.keys [("b", mk_path "data" "B.parquet");
                     ("b_2", mk_path "data" "b.parquet")])
  /\ List.map snd [("b", mk_path "data" "B.parquet");
                   ("b_2", mk_path "data" "b.parquet")] =
     sorted (glob (world_of ["b.parquet"; "B.parquet"; "notes.txt"])
                  "data" ".parquet")
  /\ Sorted path_le (List.map snd [("b", mk_path "data" "B.parquet");
                                   ("b_2", mk_path "data" "b.parquet")])
  /\ Permutation (glob (world_of ["b.parquet"; "B.parquet"; "notes.txt"])
                       "data" ".parquet")
                 (List.map snd [("b", mk_path "data" "B.parquet");
                                ("b_2", mk_path "data" "b.parquet")])
  /\ named_in_order [("b", mk_path "data" "B.parquet");
                     ("b_2", mk_path "data" "b.parquet")].
Proof.
  apply (proj1 (proj2 register_names_unique_and_ordered)
           (world_of ["b.parquet"; "B.parquet"; "notes.txt"]) [] "data"
           "taxi"
           [Glob "data" "*.parquet";
            Execute ("CREATE SCHEMA IF NOT EXISTS " ++ dq ++ "taxi" ++ dq);
            Resolve (mk_path "data" "B.parquet");
            Execute (create_view_sql "taxi" "b" "/srv/data/B.parquet");
            Execute (mirror_view_sql "taxi" "b");
            Resolve (mk_path "data" "b.parquet");
            Execute (create_view_sql "taxi" "b_2" "/srv/data/b.parquet");
            Execute (mirror_view_sql "taxi" "b_2")]).
  reflexivity.
Defined.

(** C5. When [glob] finds no parquet file, [register_parquet_tables] raises
    [FileNotFoundError], and it has done nothing but look: the trace has
    grown by the [glob] alone, so no statement (neither the schema nor a
    view) has been sent to the engine. *)
Theorem register_fails_without_files env t data_dir dataset :
  glob env data_dir ".parquet" = [] ->
  register_parquet_tables env t data_dir dataset =
  Some ((t ++ [Glob data_dir "*.parquet"])%list,
        Py.Raise (Py.FileNotFoundError
                    ("No parquet files found in " ++ data_dir))).
Proof. intros H. unfold register_parquet_tables. now rewrite H. Qed.

Lemma register_fails_without_files_witness :
  register_parquet_tables (world_of ["notes.txt"; "trips.csv"]) []
                          "data" "taxi" =
  Some ([Glob "data" "*.parquet"],
        Py.Raise (Py.FileNotFoundError "No parquet files found in data")).
Proof.
  apply (register_fails_without_files
           (world_of ["notes.txt"; "trips.csv"]) [] "data" "taxi").
  reflexivity.
Defined.

(** ** [print_results] *)

Module RenderFacts.

Lemma list_get_ok {A} i (l : list A) :
  i < List.length l -> exists x, Py.list_get i l = Py.Ok x.
Proof.
  intros H. unfold Py.list_get.
  destruct (nth_error l i) eqn:E; [now eexists|].
  apply nth_error_None in E. lia.
Qed.

Lemma list_set_ok {A} (v : A) l : forall i,
  i < List.length l ->
  exists l', Py.list_set i v l = Py.Ok l' /\ List.length l' = List.length l.
Proof.
  induction l as [|x l IH]; intros i H; simpl in H; [lia|].
  destruct i as [|i].
  - exists (v :: l). auto.
  - destruct (IH i) as (l' & E & Hlen); [lia|].
    exists (x :: l'). cbn [Py.list_set]. rewrite E. simpl. auto.
Qed.

(** A row with at most as many cells as there are widths widens them
    without an [IndexError], and keeps their number. *)
Lemma widen_row_ok row : forall i widths,
  i + List.length row <= List.length widths ->
  exists widths',
    widen_row i row widths = Py.Ok widths'
    /\ List.length widths' = List.length widths.
Proof.
  induction row as [|v row IH]; intros i widths H; simpl in *.
  - now exists widths.
  - destruct (list_get_ok i widths) as (w & ->); [lia|]. simpl.
    destruct (list_set_ok (Nat.max w (length v)) widths i)
      as (widths1 & -> & Hlen); [lia|]. simpl.
    destruct (IH (S i) widths1) as (widths' & -> & Hlen'); [lia|].
    exists widths'. split; [reflexivity|lia].
Qed.

Lemma widen_ok rows : forall widths,
  Forall (fun row : list string => List.length row <= List.length widths)
         rows ->
  exists widths',
    widen rows widths = Py.Ok widths'
    /\ List.length widths' = List.length widths.
Proof.
  induction rows as [|row rows IH]; intros widths H; simpl.
  - now exists widths.
  - inversion H as [|? ? Hrow Hrows]; subst.
    destruct (widen_row_ok row 0 widths) as (widths1 & -> & Hlen);
      [simpl; lia|]. simpl.
    destruct (IH widths1) as (widths' & -> & Hlen').
    + rewrite Hlen. exact Hrows.
    + exists widths'. split; [reflexivity|lia].
Qed.

Lemma ljust_cells_ok cells widths : forall i,
  i + List.length cells <= List.length widths ->
  exists out, ljust_cells i cells widths = Py.Ok out.
Proof.
  induction cells as [|v cells IH]; intros i H; simpl in *.
  - now eexists.
  - destruct (list_get_ok i widths) as (w & ->); [lia|]. simpl.
    destruct (IH (S i)) as (out & ->); [lia|]. simpl. now eexists.
Qed.

(** The loop that prints the rows prints one line per row. *)
Lemma print_rows_ok widths rows : forall t,
  Forall (fun row : list cell => List.length row <= List.length widths)
         rows ->
  exists lines,
    print_rows t (List.map (List.map str_cell) rows) widths
      = ((t ++ List.map Print lines)%list, Py.Ok tt)
    /\ Forall2 (line_of_row widths) rows lines.
Proof.
  induction rows as [|row rows IH]; intros t H; simpl.
  - exists []. rewrite app_nil_r. split; [reflexivity|constructor].
  - inversion H as [|? ? Hrow Hrows]; subst.
    destruct (ljust_cells_ok (List.map str_cell row) widths 0)
      as (cells & Hcells); [rewrite length_map; simpl; lia|].
    rewrite Hcells.
    destruct (IH (t ++ [Print (String.concat " | " cells)])%list Hrows)
      as (lines & -> & Hall).
    exists (String.concat " | " cells :: lines). split.
    + now rewrite <- app_assoc.
    + constructor; [|assumption]. now exists cells.
Qed.

Lemma slice_to_nonneg {A} m (l : list A) :
  (0 <= m)%Z -> Py.slice_to m l = firstn (Z.to_nat m) l.
Proof.
  intros H. unfold Py.slice_to.
  destruct (Z.leb_spec 0 m); [reflexivity|lia].
Qed.

Lemma firstn_length_firstn {A} n (l : list A) :
  firstn (List.length (firstn n l)) l = firstn n l.
Proof.
  rewrite length_firstn. destruct (Nat.le_ge_cases n (List.length l)).
  - now rewrite Nat.min_l.
  - rewrite Nat.min_r by assumption. now rewrite !firstn_all2 by lia.
Qed.

Lemma Forall_firstn_of {A} (P : A -> Prop) n l :
  Forall P l -> Forall P (firstn n l).
Proof.
  intros H. rewrite <- (firstn_skipn n l) in H.
  now apply Forall_app in H as [H _].
Qed.

End RenderFacts.

(** C6, amended.  For every well-formed result set with a column
    description holding [N] rows and every [max_rows] [m] that is not
    negative, [print_results] asks for [m + 1] rows, prints [min N m] data
    lines between the separator and the end, and prints the truncation
    notice, which states that number of lines, if and only if [N > m]. *)
Theorem print_results_truncates t c desc m :
  description c = Some desc -> well_formed c -> (0 <= m)%Z ->
  renders_truncated t c m.
Proof.
  intros Hdesc Hwf Hm. unfold well_formed in Hwf. rewrite Hdesc in Hwf.
  set (rows := pending c) in *.
  set (shown := firstn (Z.to_nat m) rows).
  assert (Hshown : Forall (fun row : list cell =>
                             List.length row = List.length desc) shown)
    by now apply RenderFacts.Forall_firstn_of.
  destruct (RenderFacts.widen_ok (List.map (List.map str_cell) shown)
                     (List.map length (List.map fst desc)))
    as (widths & Hwiden & Hlen).
  { apply Forall_map. revert Hshown. apply Forall_impl. intros row E.
    rewrite !length_map. lia. }
  rewrite !length_map in Hlen.
  destruct (RenderFacts.ljust_cells_ok (List.map fst desc) widths 0) as (header & Hhead).
  { rewrite length_map. simpl. lia. }
  destruct (RenderFacts.print_rows_ok widths shown
              ((t ++ [FetchMany (m + 1)]) ++
               [Print (String.concat " | " header);
                Print (String.concat "-+-"
                         (List.map (Str.repeat "-") widths))])%list)
    as (lines & Hprint & Hlines).
  { revert Hshown. apply Forall_impl. intros row E. lia. }
  assert (Hcount : List.length lines = List.length shown)
    by (symmetry; now apply Forall2_length in Hlines).
  assert (Hshown_len : List.length shown
                       = Nat.min (Z.to_nat m) (List.length rows))
    by apply length_firstn.
  exists desc, widths, header, lines.
  split; [assumption|]. split; [assumption|]. split.
  { rewrite Hcount. unfold shown. now rewrite RenderFacts.firstn_length_firstn. }
  split. { fold rows. lia. } split.
  { unfold fetchmany. simpl. fold rows. rewrite length_firstn. lia. }
  unfold print_results. rewrite Hdesc. unfold fetchmany.
  fold rows. rewrite RenderFacts.slice_to_nonneg by assumption.
  rewrite firstn_firstn.
  replace (Nat.min (Z.to_nat m) (Z.to_nat (m + 1))) with (Z.to_nat m) by lia.
  fold shown. rewrite Hwiden, Hhead, Hprint.
  rewrite length_firstn.
  replace (m <? Z.of_nat (Nat.min (Z.to_nat (m + 1)) (List.length rows)))%Z
    with (m <? Z.of_nat (List.length rows))%Z.
  2:{ destruct (Z.ltb_spec m (Z.of_nat (List.length rows)));
      destruct (Z.ltb_spec m (Z.of_nat (Nat.min (Z.to_nat (m + 1))
                                                (List.length rows))));
      try reflexivity; lia. }
  destruct (Z.ltb_spec m (Z.of_nat (List.length rows))) as [Hlt|Hge].
  - replace (Z.of_nat (List.length lines)) with m by lia.
    f_equal. f_equal. rewrite <- !app_assoc. reflexivity.
  - f_equal. f_equal. rewrite <- !app_assoc. simpl.
    now rewrite app_nil_r.
Qed.

Lemma print_results_truncates_witness :
  renders_truncated [] (numbers 25) 20 /\ renders_truncated [] (numbers 5) 20.
Proof.
  split.
  - apply (print_results_truncates [] (numbers 25) [("n", "INTEGER")] 20);
      [reflexivity | repeat constructor | lia].
  - apply (print_results_truncates [] (numbers 5) [("n", "INTEGER")] 20);
      [reflexivity | repeat constructor | lia].
Defined.

(** C6 as stated fails for a negative [max_rows], which [--max-rows -1]
    gives: on three rows [print_results] fetches nothing, prints no data
    line, and still prints a notice, which says [-1]; the claim asks for
    [min 3 (-1)] data lines and a notice that states the number of lines
    shown. *)
Lemma print_results_negative_max_rows :
  print_results [] (numbers 3) (-1) =
    ([FetchMany 0; Print "n"; Print "-"; Print "... showing first -1 rows"],
     numbers 3, Py.Ok tt)
  /\ ~ renders_truncated [] (numbers 3) (-1).
Proof.
  split; [reflexivity|].
  intros (desc & widths & header & lines & _ & _ & _ & Hcount & _).
  simpl in Hcount. lia.
Qed.

(** ** [main] *)

(** C8, amended.  When a non-empty [--query] and a [--query-file] are both
    given, [main] raises [SystemExit] with a one-line message, so the
    process ends with status 1, and it does so before any effect: nothing
    has been connected to, listed, read or executed. *)
Theorem main_rejects_conflicting_arguments env args q f :
  query args = Some q -> q <> "" -> query_file args = Some f ->
  rejects_conflict env args
  /\ exit_status (Py.Raise (Py.SystemExit conflict_message)) = 1%Z
  /\ Str.mem "010" conflict_message = false.
Proof.
  intros Hq Hne Hf. unfold rejects_conflict, main. rewrite Hq, Hf.
  destruct q; [congruence|]. simpl. auto.
Qed.

Lemma main_rejects_conflicting_arguments_witness :
  rejects_conflict (world_of ["trips.parquet"])
    (mk_args "data" "taxi" bigquery (Some "SELECT 2") (Some "q.sql") false 20)
  /\ exit_status (Py.Raise (Py.SystemExit conflict_message)) = 1%Z
  /\ Str.mem "010" conflict_message = false.
Proof.
  apply (main_rejects_conflicting_arguments (world_of ["trips.parquet"])
           (mk_args "data" "taxi" bigquery (Some "SELECT 2") (Some "q.sql")
                    false 20)
           "SELECT 2" "q.sql");
    [reflexivity | discriminate | reflexivity].
Defined.

(** C8 as stated fails when the [--query] value is the empty string: the
    test is on truth values, and an empty string is false.  With
    [--query '' --query-file q.sql] the program connects, registers the
    tables, reads the file, runs its statement and ends with status 0. *)
Lemma main_accepts_empty_query_with_file :
  let args := mk_args "data" "taxi" bigquery (Some "") (Some "q.sql") false 20
  in
  query args = Some "" /\ query_file args = Some "q.sql"
  /\ (exists t, main (world_of ["trips.parquet"]) args = Some (t, Py.Ok tt)
               /\ In (Connect ":memory:") t /\ In (ReadText "q.sql") t
               /\ In (Execute "SELECT 1") t)
  /\ exit_status (Py.Ok tt) = 0%Z
  /\ ~ rejects_conflict (world_of ["trips.parquet"]) args.
Proof.
  cbv zeta. split; [reflexivity|]. split; [reflexivity|]. split.
  - eexists. split; [vm_compute; reflexivity|].
    repeat split; simpl; tauto.
  - split; [reflexivity|]. unfold rejects_conflict. vm_compute. discriminate.
Qed.

(** ** The general statements at concrete inputs *)

Lemma translate_rewrites_references_witness :
  translate_bigquery_sql
    ("SELECT n FROM " ++ ref3 "my-proj" "ds" "tbl" ++ " AS t") "default"
  = "SELECT n FROM " ++ String "034" "ds" ++ String "034" "."
      ++ String "034" "tbl" ++ String "034" ""
      ++ translate_bigquery_sql " AS t" "default"
  /\ translate_bigquery_sql
       ("SELECT n FROM " ++ ref2 "ds" "tbl" ++ " AS t") "default"
     = "SELECT n FROM " ++ String "034" "ds" ++ String "034" "."
         ++ String "034" "tbl" ++ String "034" ""
         ++ translate_bigquery_sql " AS t" "default".
Proof.
  apply (proj1 translate_rewrites_references
           "SELECT n FROM " "my-proj" "ds" "tbl" " AS t" "default");
    [reflexivity | | | ]; (split; [discriminate | reflexivity]).
Defined.

Lemma sanitize_result_is_identifier_witness :
  Str.all ident_char "t_123abc" = true
  /\ head_in digit_char "t_123abc" = false
  /\ "t_123abc" = (if head_in digit_char (substituted "123abc")
                   then "t_" ++ substituted "123abc"
                   else substituted "123abc").
Proof.
  apply (proj1 sanitize_result_is_identifier "123abc" "t_123abc").
  reflexivity.
Defined.

Lemma sanitize_fails_on_empty_only_witness :
  exists msg,
    sanitize_table_name "" = Py.Raise (Py.ValueError msg)
    /\ msg = "Unable to create table name from: " ++ Py.repr ""
    /\ includes msg "".
Proof.
  apply (proj1 (proj2 (sanitize_fails_on_empty_only ""))).
  reflexivity.
Defined.

Lemma translate_ignores_default_dataset_witness :
  Re.match_at BIGQUERY_TABLE_PATTERN "`ds.tbl` AS t" =
  Some (Re.mk_match (two_groups "ds" "tbl") " AS t").
Proof.
  apply (proj1 (proj2 translate_ignores_default_dataset)).
  reflexivity.
Defined.


(** * Further properties of the program *)

(** ** [sanitize_table_name] *)

Module SanitizeMore.
Import SanitizeFacts.

Lemma ident_fixed c :
  ident_char c = true -> Py.lower_char (subst_char c) = c.
Proof. destruct c as [[] [] [] [] [] [] [] []]; vm_compute; congruence. Qed.

Lemma digit_kept c :
  digit_char (Py.lower_char (subst_char c)) = digit_char c.
Proof. destruct c as [[] [] [] [] [] [] [] []]; reflexivity. Qed.

Lemma map_fixed p f s :
  (forall c, p c = true -> f c = c) -> Str.all p s = true -> Str.map f s = s.
Proof.
  intros H. induction s as [|c s IH]; simpl; [reflexivity|].
  intros Hs. apply andb_prop in Hs as [Hc Hs]. now rewrite H, IH.
Qed.

Lemma map_ext f g s : (forall c, f c = g c) -> Str.map f s = Str.map g s.
Proof.
  intros H. induction s as [|c s IH]; simpl; [reflexivity|].
  now rewrite H, IH.
Qed.

(** What a successful result looks like. *)
Lemma sanitize_shape raw name :
  sanitize_table_name raw = Py.Ok name ->
  name <> "" /\ Str.all ident_char name = true
  /\ head_in digit_char name = false.
Proof.
  rewrite sanitize_eq. pose proof (substituted_ident raw) as Hid.
  destruct (substituted raw) as [|c s] eqn:E; [discriminate|].
  intros [= <-]. simpl in Hid. apply andb_prop in Hid as [Hc Hs].
  rewrite (isdigit_on_ident c Hc).
  destruct (digit_char c) eqn:Hd; simpl.
  - rewrite Hc, Hs. repeat split. discriminate.
  - rewrite Hc, Hs, Hd. repeat split. discriminate.
Qed.

Lemma head_map_digit raw :
  head_in digit_char (substituted raw) = head_in digit_char raw.
Proof.
  rewrite substituted_map. destruct raw as [|c raw]; [reflexivity|].
  simpl. apply digit_kept.
Qed.

Lemma substituted_length raw : length (substituted raw) = length raw.
Proof. rewrite substituted_map. apply StrFacts.length_map. Qed.

Lemma subst_ascii_lower c :
  Py.lower_char (subst_char (ascii_lower c)) = Py.lower_char (subst_char c).
Proof. destruct c as [[] [] [] [] [] [] [] []]; reflexivity. Qed.

Lemma substituted_ascii_lower raw :
  substituted (Str.map ascii_lower raw) = substituted raw.
Proof.
  rewrite !substituted_map, map_map. apply map_ext, subst_ascii_lower.
Qed.

Lemma sanitize_ascii_lower raw :
  sanitize_table_name (Str.map ascii_lower raw) = sanitize_table_name raw.
Proof.
  rewrite !sanitize_eq, substituted_ascii_lower.
  destruct (substituted raw) eqn:E; [|reflexivity].
  apply (proj1 (substituted_nil raw)) in E. now subst raw.
Qed.

End SanitizeMore.

(** X1. A name that [sanitize_table_name] returns is a fixed point: given
    back to the function, it is returned unchanged. *)
Theorem sanitize_idempotent raw_name name :
  sanitize_table_name raw_name = Py.Ok name ->
  sanitize_table_name name = Py.Ok name.
Proof.
  intros H. apply SanitizeMore.sanitize_shape in H as (Hne & Hid & Hd).
  rewrite SanitizeFacts.sanitize_eq, SanitizeFacts.substituted_map.
  rewrite (SanitizeMore.map_fixed ident_char) by
    (assumption || apply SanitizeMore.ident_fixed).
  destruct name as [|c s]; [congruence|].
  simpl in Hid, Hd. apply andb_prop in Hid as [Hc _].
  now rewrite (SanitizeFacts.isdigit_on_ident c Hc), Hd.
Qed.

Lemma sanitize_idempotent_witness :
  sanitize_table_name "t_2024_trips" = Py.Ok "t_2024_trips".
Proof.
  apply (sanitize_idempotent "2024 Trips" "t_2024_trips"). reflexivity.
Defined.

(** X2. Raw names that differ only in the case of the letters A-Z get the
    same outcome: the same table name, or the same failure. *)
Theorem sanitize_ignores_case a b :
  Str.map ascii_lower a = Str.map ascii_lower b ->
  sanitize_table_name a = sanitize_table_name b.
Proof.
  intros H. rewrite <- (SanitizeMore.sanitize_ascii_lower a), H.
  apply SanitizeMore.sanitize_ascii_lower.
Qed.

Lemma sanitize_ignores_case_witness :
  sanitize_table_name "Yellow-Trips 1" = sanitize_table_name "YELLOW-trips 1".
Proof.
  apply (sanitize_ignores_case "Yellow-Trips 1" "YELLOW-trips 1").
  reflexivity.
Defined.

(** X3. A successful result is the raw name, character by character, with
    letters, digits and the underscore kept (letters lower-cased) and every
    other character replaced by one underscore; [t_] stands before it
    exactly when the raw name starts with one of the digits 0-9.  So its
    length is that of the raw name, plus two in that case. *)
Theorem sanitize_is_characterwise raw_name name :
  sanitize_table_name raw_name = Py.Ok name ->
  name = (if head_in digit_char raw_name then "t_" else "")
         ++ Str.map (fun c => if word_char c then Py.lower_char c
                              else "_"%char) raw_name
  /\ length name = (if head_in digit_char raw_name then 2 else 0)
                   + length raw_name.
Proof.
  intros H.
  assert (E : substituted raw_name =
              Str.map (fun c => if word_char c then Py.lower_char c
                                else "_"%char) raw_name).
  { rewrite SanitizeFacts.substituted_map. apply SanitizeMore.map_ext.
    intros c. unfold subst_char. now destruct (word_char c). }
  rewrite SanitizeFacts.sanitize_eq in H.
  pose proof (SanitizeFacts.substituted_ident raw_name) as Hid.
  pose proof (SanitizeMore.head_map_digit raw_name) as Hhead.
  destruct (substituted raw_name) as [|c s] eqn:Es; [discriminate|].
  injection H as <-. simpl in Hid. apply andb_prop in Hid as [Hc _].
  rewrite (SanitizeFacts.isdigit_on_ident c Hc). simpl in Hhead.
  rewrite <- Hhead, <- E.
  destruct (digit_char c); split; try reflexivity;
    rewrite <- (SanitizeMore.substituted_length raw_name), Es; reflexivity.
Qed.

Lemma sanitize_is_characterwise_witness :
  "t_2024_q1_trips" = (if head_in digit_char "2024-Q1 Trips" then "t_" else "")
         ++ Str.map (fun c => if word_char c then Py.lower_char c
                              else "_"%char) "2024-Q1 Trips"
  /\ length "t_2024_q1_trips"
     = (if head_in digit_char "2024-Q1 Trips" then 2 else 0)
       + length "2024-Q1 Trips".
Proof.
  apply (sanitize_is_characterwise "2024-Q1 Trips" "t_2024_q1_trips").
  reflexivity.
Defined.

(** ** [translate_bigquery_sql] *)

Module TranslateMore.
Import Re ReFacts PatternFacts MatchFacts SubFacts TranslateFacts HyphenFacts
       PassFacts.

Lemma plain_of_mem s :
  Str.mem "`" s = false -> Str.mem "." s = false ->
  Str.all plain_char s = true.
Proof.
  induction s as [|c s IH]; simpl; [reflexivity|].
  intros Hb Hd. apply orb_false_elim in Hb as [Hb Hbs].
  apply orb_false_elim in Hd as [Hd Hds].
  unfold plain_char at 1. now rewrite Hb, Hd, IH.
Qed.

Lemma plain_of_project s :
  Str.all project_char s = true -> Str.all plain_char s = true.
Proof.
  induction s as [|c s IH]; simpl; [reflexivity|].
  intros H. apply andb_prop in H as [Hc Hs]. rewrite IH by assumption.
  apply project_char_not in Hc as (Hd & Hb & _).
  apply Ascii.eqb_neq in Hd, Hb. unfold plain_char. now rewrite Hd, Hb.
Qed.

(** A match needs a dot before the next backtick. *)
Lemma no_match3_plain body post :
  Str.all plain_char body = true ->
  match_at BIGQUERY_TABLE_PATTERN (String "`" (body ++ String "`" post)) = None.
Proof.
  intros Hbody.
  destruct (match_at BIGQUERY_TABLE_PATTERN _) as [m|] eqn:E;
    [exfalso|reflexivity].
  apply match3_inv in E as
    [(p & d & t & rest & [_ Hp] & _ & _ & E & _)
    |(d & t & rest & [_ Hd] & _ & E & _)].
  - rewrite ref3_app in E. injection E as E. symmetry in E.
    apply (run_unique plain_char) in E as (_ & E & _);
      try assumption; try reflexivity; [discriminate|].
    now apply plain_of_project.
  - rewrite ref2_app in E. injection E as E. symmetry in E.
    apply (run_unique plain_char) in E as (_ & E & _);
      try assumption; try reflexivity; [discriminate|].
    now apply plain_of_project, all_word_project.
Qed.

Lemma no_match2_plain body post :
  Str.all plain_char body = true ->
  match_at BIGQUERY_TWO_PART_PATTERN (String "`" (body ++ String "`" post))
  = None.
Proof.
  intros Hbody.
  destruct (match_at BIGQUERY_TWO_PART_PATTERN _) as [m|] eqn:E;
    [exfalso|reflexivity].
  apply match2_inv in E as (d & t & rest & [_ Hd] & _ & E & _).
  rewrite ref2_app in E. injection E as E. symmetry in E.
  apply (run_unique plain_char) in E as (_ & E & _);
    try assumption; try reflexivity; [discriminate|].
  now apply plain_of_project, all_word_project.
Qed.

(** A match needs a segment right after its backtick. *)
Lemma match3_head s' m :
  match_at BIGQUERY_TABLE_PATTERN (String "`" s') = Some m ->
  head_in project_char s' = true.
Proof.
  intros H. apply match3_inv in H as
    [(p & d & t & rest & [Hp Hpw] & _ & _ & E & _)
    |(d & t & rest & [Hd Hdw] & _ & E & _)].
  - rewrite ref3_app in E. injection E as ->.
    destruct p; [congruence|]. simpl in *. now apply andb_prop in Hpw as [-> _].
  - rewrite ref2_app in E. injection E as ->.
    destruct d; [congruence|]. simpl in *. apply andb_prop in Hdw as [H _].
    now apply word_project.
Qed.

Lemma match2_head s' m :
  match_at BIGQUERY_TWO_PART_PATTERN (String "`" s') = Some m ->
  head_in project_char s' = true.
Proof.
  intros H. apply match2_inv in H as (d & t & rest & [Hd Hdw] & _ & E & _).
  rewrite ref2_app in E. injection E as ->.
  destruct d; [congruence|]. simpl in *. apply andb_prop in Hdw as [H _].
  now apply word_project.
Qed.

(** The first pass does not put a segment character in front. *)
Lemma sub3_head s :
  head_in project_char s = false -> head_in project_char (sub3 s) = false.
Proof.
  intros H. unfold sub3.
  destruct (match_at BIGQUERY_TABLE_PATTERN s) as [m|] eqn:Hm.
  - rewrite (sub_match _ _ match3_backtick _ _ Hm).
    apply replacement_shape in Hm as (q & -> & _). reflexivity.
  - destruct s as [|c s].
    + now rewrite sub_nil.
    + now rewrite sub_skip.
Qed.

(** Backticks around text with no dot, followed by something that is not a
    segment character: every pass leaves the two backticks. *)
Lemma pass_quoted r repl body post :
  (forall s m, match_at r s = Some m ->
               exists s', s = String "`" s' /\ length (m_rest m) < length s) ->
  Str.mem "`" body = false ->
  match_at r (String "`" (body ++ String "`" post)) = None ->
  match_at r (String "`" post) = None ->
  sub r repl (String "`" (body ++ String "`" post)) =
  String "`" (body ++ String "`" (sub r repl post)).
Proof.
  intros Hr Hbody H1 H2.
  rewrite sub_skip by assumption. f_equal.
  rewrite (sub_prefix _ _ Hr) by assumption. f_equal.
  now rewrite sub_skip.
Qed.

Lemma ident_word c : ident_char c = true -> word_char c = true.
Proof. destruct c as [[] [] [] [] [] [] [] []]; vm_compute; congruence. Qed.

Lemma all_ident_word s :
  Str.all ident_char s = true -> Str.all word_char s = true.
Proof.
  induction s as [|c s IH]; simpl; [reflexivity|].
  intros H. apply andb_prop in H as [Hc Hs].
  now rewrite (ident_word c Hc), IH.
Qed.

End TranslateMore.

(** C10. A backtick-quoted [first.second] whose first segment (letters,
    digits, underscores, hyphens) holds a hyphen and whose second segment is
    made of letters, digits and underscores is matched by neither table
    pattern.  After text without backticks, and before text that holds no
    backtick or does not start with a letter, a digit, an underscore or a
    hyphen, the translation only turns its two backticks into double
    quotes, giving one quoted identifier; the text after it is translated
    on its own.  In particular [`my-proj.ds`], alone and before another
    reference. *)
Theorem hyphen_reference_only_requoted :
  (forall pre first second post default_dataset,
      Str.mem "`" pre = false ->
      Str.mem "`" post = false \/ head_in project_char post = false ->
      segment project_char first -> Str.mem "-" first = true ->
      segment word_char second ->
      Re.match_at BIGQUERY_TABLE_PATTERN (ref2 first second ++ post) = None
      /\ Re.match_at BIGQUERY_TWO_PART_PATTERN (ref2 first second ++ post)
         = None
      /\ translate_bigquery_sql (pre ++ ref2 first second ++ post)
                                default_dataset =
         pre ++ dq ++ first ++ "." ++ second ++ dq
             ++ translate_bigquery_sql post default_dataset)
  /\ (forall default_dataset,
         translate_bigquery_sql "`my-proj.ds`" default_dataset =
         dq ++ "my-proj.ds" ++ dq)
  /\ (forall default_dataset,
         translate_bigquery_sql "`my-proj.ds` JOIN `a.b`" default_dataset =
         dq ++ "my-proj.ds" ++ dq ++ " JOIN " ++ dq ++ "a" ++ dq ++ "."
            ++ dq ++ "b" ++ dq).
Proof.
  assert (G : forall pre first second post default_dataset,
      Str.mem "`" pre = false ->
      Str.mem "`" post = false \/ head_in project_char post = false ->
      segment project_char first -> Str.mem "-" first = true ->
      segment word_char second ->
      Re.match_at BIGQUERY_TABLE_PATTERN (ref2 first second ++ post) = None
      /\ Re.match_at BIGQUERY_TWO_PART_PATTERN (ref2 first second ++ post)
         = None
      /\ translate_bigquery_sql (pre ++ ref2 first second ++ post)
                                default_dataset =
         pre ++ dq ++ first ++ "." ++ second ++ dq
             ++ translate_bigquery_sql post default_dataset).
  { intros pre a b post dflt Hpre Hpost Ha Hh Hb.
    pose proof (HyphenFacts.hyphen_no_match3 a b post Ha Hh Hb) as H3.
    split; [assumption|].
    split; [exact (HyphenFacts.hyphen_no_match2 a b post Ha Hh Hb)|].
    assert (Hbody : Str.mem "`" (a ++ String "." b) = false).
    { rewrite StrFacts.mem_append. simpl.
      rewrite (TranslateFacts.project_no_backtick a) by apply Ha.
      now rewrite (TranslateFacts.word_no_backtick b) by apply Hb. }
    assert (Eref : forall rest,
               ref2 a b ++ rest =
               String "`" ((a ++ String "." b) ++ String "`" rest)).
    { intros rest. rewrite MatchFacts.ref2_app. f_equal.
      rewrite StrFacts.append_assoc. reflexivity. }
    assert (N3 : Re.match_at BIGQUERY_TABLE_PATTERN (String "`" post) = None).
    { destruct (Re.match_at BIGQUERY_TABLE_PATTERN (String "`" post))
        as [m|] eqn:F; [|reflexivity].
      destruct Hpost as [Hpost|Hpost].
      - apply HyphenFacts.match3_closing in F. congruence.
      - apply TranslateMore.match3_head in F. congruence. }
    assert (N2 : Re.match_at BIGQUERY_TWO_PART_PATTERN
                   (String "`" (sub3 post)) = None).
    { destruct (Re.match_at BIGQUERY_TWO_PART_PATTERN
                  (String "`" (sub3 post))) as [m|] eqn:F; [|reflexivity].
      destruct Hpost as [Hpost|Hpost].
      - apply HyphenFacts.match2_closing in F.
        unfold sub3 in F.
        rewrite (SubFacts.sub_id _ _ MatchFacts.match3_backtick) in F
          by assumption.
        congruence.
      - apply TranslateMore.match2_head in F.
        rewrite (TranslateMore.sub3_head post Hpost) in F. discriminate. }
    rewrite Eref in H3 |- *.
    pose proof (HyphenFacts.hyphen_no_match2 a b (sub3 post) Ha Hh Hb) as H2.
    rewrite Eref in H2.
    rewrite !TranslateFacts.translate_eq.
    assert (E3 : sub3 (pre ++ String "`"
                         ((a ++ String "." b) ++ String "`" post)) =
                 pre ++ String "`"
                   ((a ++ String "." b) ++ String "`" (sub3 post))).
    { unfold sub3 in *.
      rewrite (SubFacts.sub_prefix _ _ MatchFacts.match3_backtick)
        by assumption.
      f_equal.
      apply (TranslateMore.pass_quoted _ _ _ post MatchFacts.match3_backtick);
        assumption. }
    rewrite E3.
    assert (E2 : sub2 dflt
                   (pre ++ String "`"
                      ((a ++ String "." b) ++ String "`" (sub3 post))) =
                 pre ++ String "`"
                   ((a ++ String "." b)
                    ++ String "`" (sub2 dflt (sub3 post)))).
    { unfold sub2 in *.
      rewrite (SubFacts.sub_prefix _ _ MatchFacts.match2_backtick)
        by assumption.
      f_equal.
      apply (TranslateMore.pass_quoted _ _ _ _ MatchFacts.match2_backtick);
        assumption. }
    rewrite E2. unfold unquote.
    rewrite SubFacts.replace_append, SubFacts.replace_id by assumption.
    f_equal. simpl. f_equal.
    rewrite SubFacts.replace_append, SubFacts.replace_id by assumption.
    unfold dq. simpl. rewrite !StrFacts.append_assoc. reflexivity. }
  split; [exact G|]. split.
  - intros dflt.
    destruct (G "" "my-proj" "ds" "" dflt) as (_ & _ & E);
      [reflexivity | now left | split; [discriminate|reflexivity]
      | reflexivity | split; [discriminate|reflexivity] |].
    exact E.
  - intros dflt.
    destruct (G "" "my-proj" "ds" " JOIN `a.b`" dflt) as (_ & _ & E);
      [reflexivity | now right | split; [discriminate|reflexivity]
      | reflexivity | split; [discriminate|reflexivity] |].
    etransitivity; [exact E|].
    change (translate_bigquery_sql " JOIN `a.b`" dflt)
      with (translate_bigquery_sql (" JOIN " ++ ref2 "a" "b" ++ "") dflt).
    rewrite TranslateFacts.translate_ref2;
      [reflexivity | reflexivity | split; [discriminate|reflexivity]
      | split; [discriminate|reflexivity]].
Qed.

Lemma hyphen_reference_only_requoted_witness :
  Re.match_at BIGQUERY_TABLE_PATTERN
    (ref2 "my-proj" "ds" ++ " AS p JOIN `a.b` AS q") = None
  /\ Re.match_at BIGQUERY_TWO_PART_PATTERN
       (ref2 "my-proj" "ds" ++ " AS p JOIN `a.b` AS q") = None
  /\ translate_bigquery_sql
       ("SELECT n FROM " ++ ref2 "my-proj" "ds" ++ " AS p JOIN `a.b` AS q")
       "default"
     = "SELECT n FROM " ++ dq ++ "my-proj" ++ "." ++ "ds" ++ dq
         ++ translate_bigquery_sql " AS p JOIN `a.b` AS q" "default".
Proof.
  apply (proj1 hyphen_reference_only_requoted
           "SELECT n FROM " "my-proj" "ds" " AS p JOIN `a.b` AS q" "default");
    [reflexivity | right; reflexivity | split; [discriminate | reflexivity]
    | reflexivity | split; [discriminate | reflexivity]].
Defined.

(** X4. Text before the first backtick is copied as it is, and the rest is
    translated on its own; in particular a statement without any backtick
    is returned unchanged. *)
Theorem translate_keeps_plain_prefix pre sql default_dataset :
  Str.mem "`" pre = false ->
  translate_bigquery_sql (pre ++ sql) default_dataset =
  pre ++ translate_bigquery_sql sql default_dataset
  /\ translate_bigquery_sql pre default_dataset = pre.
Proof.
  intros H. split; [|now apply TranslateFacts.translate_id].
  rewrite !TranslateFacts.translate_eq. unfold sub3, sub2, unquote.
  rewrite (SubFacts.sub_prefix _ _ MatchFacts.match3_backtick) by assumption.
  rewrite (SubFacts.sub_prefix _ _ MatchFacts.match2_backtick) by assumption.
  rewrite SubFacts.replace_append. f_equal.
  now apply SubFacts.replace_id.
Qed.

Lemma translate_keeps_plain_prefix_witness :
  translate_bigquery_sql ("SELECT 'a.b' FROM " ++ "`x.y` WHERE n > 1") "taxi" =
  "SELECT 'a.b' FROM " ++ translate_bigquery_sql "`x.y` WHERE n > 1" "taxi"
  /\ translate_bigquery_sql "SELECT 'a.b' FROM " "taxi" = "SELECT 'a.b' FROM ".
Proof.
  apply (translate_keeps_plain_prefix "SELECT 'a.b' FROM "
                                      "`x.y` WHERE n > 1" "taxi").
  reflexivity.
Defined.

(** X5. A backtick-quoted name that holds no dot, such as a column
    identifier, is requoted with double quotes and otherwise kept, when it
    follows text without backticks and the character after it (if any) is
    not a letter, digit, underscore or hyphen; what follows is translated on
    its own. *)
Theorem translate_requotes_identifier pre body post default_dataset :
  Str.mem "`" pre = false ->
  Str.mem "`" body = false -> Str.mem "." body = false ->
  head_in project_char post = false ->
  translate_bigquery_sql (pre ++ "`" ++ body ++ "`" ++ post) default_dataset
  = pre ++ dq ++ body ++ dq ++ translate_bigquery_sql post default_dataset.
Proof.
  intros Hpre Hb Hd Hpost.
  pose proof (TranslateMore.plain_of_mem body Hb Hd) as Hplain.
  assert (E : "`" ++ body ++ "`" ++ post = String "`" (body ++ String "`" post))
    by reflexivity.
  rewrite E. clear E.
  pose proof (TranslateMore.sub3_head post Hpost) as Hhead.
  assert (N3 : Re.match_at BIGQUERY_TABLE_PATTERN (String "`" post) = None).
  { destruct (Re.match_at BIGQUERY_TABLE_PATTERN (String "`" post))
      as [m|] eqn:F; [|reflexivity].
    apply TranslateMore.match3_head in F. congruence. }
  assert (N2 : Re.match_at BIGQUERY_TWO_PART_PATTERN (String "`" (sub3 post))
               = None).
  { destruct (Re.match_at BIGQUERY_TWO_PART_PATTERN (String "`" (sub3 post)))
      as [m|] eqn:F; [|reflexivity].
    apply TranslateMore.match2_head in F. congruence. }
  rewrite !TranslateFacts.translate_eq.
  assert (E3 : sub3 (pre ++ String "`" (body ++ String "`" post)) =
               pre ++ String "`" (body ++ String "`" (sub3 post))).
  { unfold sub3 in *.
    rewrite (SubFacts.sub_prefix _ _ MatchFacts.match3_backtick) by assumption.
    f_equal.
    apply (TranslateMore.pass_quoted _ _ body post MatchFacts.match3_backtick);
      try assumption.
    now apply TranslateMore.no_match3_plain. }
  rewrite E3.
  assert (E2 : sub2 default_dataset
                 (pre ++ String "`" (body ++ String "`" (sub3 post))) =
               pre ++ String "`"
                 (body ++ String "`" (sub2 default_dataset (sub3 post)))).
  { unfold sub2 in *.
    rewrite (SubFacts.sub_prefix _ _ MatchFacts.match2_backtick) by assumption.
    f_equal.
    apply (TranslateMore.pass_quoted _ _ body _ MatchFacts.match2_backtick);
      try assumption.
    now apply TranslateMore.no_match2_plain. }
  rewrite E2. unfold unquote.
  rewrite SubFacts.replace_append, SubFacts.replace_id by assumption.
  f_equal. simpl. f_equal.
  rewrite SubFacts.replace_append, SubFacts.replace_id by assumption.
  reflexivity.
Qed.

Lemma translate_requotes_identifier_witness :
  translate_bigquery_sql ("SELECT " ++ "`" ++ "trip id" ++ "`"
                          ++ ", n FROM `taxi.trips`") "taxi"
  = "SELECT " ++ dq ++ "trip id" ++ dq
    ++ translate_bigquery_sql ", n FROM `taxi.trips`" "taxi".
Proof.
  apply (translate_requotes_identifier "SELECT " "trip id"
                                       ", n FROM `taxi.trips`" "taxi");
    reflexivity.
Defined.

(** X6. The example query that [main] prints for a registered table, with
    its backtick-quoted [local.dataset.table], translates to a query on the
    double-quoted dataset and table, which is the very name of the view
    that [register_parquet_tables] creates for that table.  This holds for
    every table name the sanitizer returns and every dataset name made of
    letters, digits and underscores. *)
Theorem example_query_names_the_view raw_name table_name dataset path_sql
    default_dataset :
  sanitize_table_name raw_name = Py.Ok table_name ->
  segment word_char dataset ->
  translate_bigquery_sql
    ("SELECT COUNT(*) AS trips FROM `local." ++ dataset ++ "." ++ table_name
     ++ "`") default_dataset
  = "SELECT COUNT(*) AS trips FROM " ++ quoted_pair dataset table_name
  /\ includes (create_view_sql dataset table_name path_sql)
              ("VIEW " ++ quoted_pair dataset table_name ++ " AS").
Proof.
  intros Hname Hds.
  apply SanitizeMore.sanitize_shape in Hname as (Hne & Hid & _).
  split.
  - assert (E : "SELECT COUNT(*) AS trips FROM `local." ++ dataset ++ "."
                ++ table_name ++ "`"
                = "SELECT COUNT(*) AS trips FROM "
                  ++ ref3 "local" dataset table_name ++ "").
    { unfold ref3. simpl. rewrite ?StrFacts.append_assoc. simpl.
      rewrite ?StrFacts.append_assoc. simpl.
      now rewrite ?StrFacts.append_assoc, ?StrFacts.append_nil_r. }
    rewrite E, TranslateFacts.translate_ref3; try assumption.
    + change (translate_bigquery_sql "" default_dataset) with "".
      now rewrite StrFacts.append_nil_r.
    + reflexivity.
    + split; [discriminate|reflexivity].
    + split; [assumption|]. now apply TranslateMore.all_ident_word.
  - exists (nl ++ indent12 ++ "CREATE OR REPLACE "),
           (nl ++ indent12 ++ "SELECT * FROM read_parquet('" ++ path_sql
               ++ "')" ++ nl ++ indent12).
    unfold create_view_sql, quoted_pair, dq. simpl.
    rewrite ?StrFacts.append_assoc. simpl.
    rewrite ?StrFacts.append_assoc. simpl.
    rewrite ?StrFacts.append_assoc. reflexivity.
Qed.

Lemma example_query_names_the_view_witness :
  translate_bigquery_sql
    ("SELECT COUNT(*) AS trips FROM `local." ++ "taxi" ++ "." ++ "yellow_2024"
     ++ "`") "taxi"
  = "SELECT COUNT(*) AS trips FROM " ++ quoted_pair "taxi" "yellow_2024"
  /\ includes (create_view_sql "taxi" "yellow_2024" "/srv/data/x.parquet")
              ("VIEW " ++ quoted_pair "taxi" "yellow_2024" ++ " AS").
Proof.
  apply (example_query_names_the_view "Yellow-2024" "yellow_2024" "taxi"
           "/srv/data/x.parquet" "taxi");
    [reflexivity | split; [discriminate|reflexivity]].
Defined.

(** ** Files and their stems *)

Module PathMore.

Lemma endswith_split suffix s :
  Str.endswith suffix s = true -> exists x, s = x ++ suffix.
Proof.
  induction s as [|c s IH]; cbn [Str.endswith].
  - rewrite orb_false_r. intros H. apply String.eqb_eq in H.
    exists "". now rewrite <- H.
  - intros H. apply orb_prop in H as [H|H].
    + apply String.eqb_eq in H. exists "". now rewrite <- H.
    + destruct (IH H) as (x & ->). now exists (String c x).
Qed.

Lemma rindex_append c a b i :
  Str.rindex c b = Some i -> Str.rindex c (a ++ b) = Some (length a + i).
Proof.
  intros H. induction a as [|x a IH]; simpl; [assumption|]. now rewrite IH.
Qed.

Lemma stem_parquet d x :
  x <> "" -> stem (mk_path d (x ++ ".parquet")) = x.
Proof.
  intros Hx. unfold stem. cbn [path_name].
  rewrite (rindex_append "." x ".parquet" 0) by reflexivity.
  rewrite StrFacts.length_append, Nat.add_0_r.
  assert (L : 0 < length x) by (destruct x; [congruence|simpl; lia]).
  destruct (Nat.ltb_spec 0 (length x)); [|lia].
  destruct (Nat.ltb_spec (length x) (length x + length ".parquet" - 1));
    [|simpl in *; lia].
  simpl. apply StrFacts.take_append.
Qed.

End PathMore.

(** X7. Every file that the registrar discovers is named [x.parquet] for
    some text [x], in the directory scanned; its stem, from which the table
    name is made, is [x], except for the file named just [.parquet], whose
    stem is the whole name. *)
Theorem stem_of_discovered_file env dir f :
  In f (glob env dir ".parquet") ->
  exists x,
    path_dir f = dir /\ path_name f = x ++ ".parquet"
    /\ stem f = (if (x =? "")%string then ".parquet" else x).
Proof.
  unfold glob. intros H. apply in_map_iff in H as (n & <- & Hn).
  apply filter_In in Hn as [_ Hn].
  apply PathMore.endswith_split in Hn as (x & ->). exists x.
  split; [reflexivity|]. split; [reflexivity|].
  destruct (String.eqb_spec x "") as [->|Hx]; [reflexivity|].
  now apply PathMore.stem_parquet.
Qed.

Lemma stem_of_discovered_file_witness :
  exists x,
    path_dir (mk_path "data" "yellow.2024.parquet") = "data"
    /\ path_name (mk_path "data" "yellow.2024.parquet") = x ++ ".parquet"
    /\ stem (mk_path "data" "yellow.2024.parquet")
       = (if (x =? "")%string then ".parquet" else x).
Proof.
  apply (stem_of_discovered_file
           (world_of ["notes.txt"; "yellow.2024.parquet"]) "data"
           (mk_path "data" "yellow.2024.parquet")).
  simpl. tauto.
Defined.

(** ** [register_parquet_tables]: what is sent to the engine *)

Module RegisterMore.
Import RegisterFacts.

Lemma register_loop_trace env dataset files : forall t loaded t' tables,
  register_loop env dataset files t loaded = Some (t', Py.Ok tables) ->
  exists added,
    tables = (loaded ++ added)%list
    /\ List.map snd added = files
    /\ t' = (t ++ flat_map (view_events env dataset) added)%list.
Proof.
  induction files as [|f files IH]; intros t loaded t' tables H;
    cbn [register_loop] in H.
  - injection H as <- <-. exists []. now rewrite !app_nil_r.
  - destruct (sanitize_table_name (stem f)) as [base|e]; [|discriminate].
    destruct (free_name_first_unused loaded base) as (name & Hname & Hfirst).
    rewrite Hname in H.
    assert (Hfree : ~ In name (Py.keys loaded)).
    { destruct Hfirst as (k & _ & _ & Hf & _). exact Hf. }
    unfold run in H.
    destruct (execute env _ _); [|discriminate].
    destruct (execute env _ _); [|discriminate].
    rewrite dict_set_fresh in H by assumption.
    apply IH in H as (added & -> & Hsnd & ->).
    exists ((name, f) :: added). rewrite <- !app_assoc. simpl.
    repeat split. now rewrite Hsnd.
Qed.

End RegisterMore.

(** X8. Whenever [register_parquet_tables] returns a mapping, what it has
    done is, in order: the directory scan, the creation of the schema, and
    for each table of the mapping, in the mapping's order, the resolution of
    its file, the creation of the view [dataset.table] over the file (single
    quotes of the path doubled) and the creation of the unqualified view
    over that view; [view_events] spells out the text of the two
    statements.  So it sends one statement plus two per table, and the
    mapping holds one table per discovered file. *)
Theorem register_effects env t data_dir dataset t' tables :
  register_parquet_tables env t data_dir dataset = Some (t', Py.Ok tables) ->
  t' = (t ++ Glob data_dir "*.parquet"
          :: Execute ("CREATE SCHEMA IF NOT EXISTS " ++ dq ++ dataset ++ dq)
          :: flat_map (view_events env dataset) tables)%list
  /\ List.length tables = List.length (glob env data_dir ".parquet")
  /\ List.length (List.filter (fun e => match e with
                                         | Execute _ => true
                                         | _ => false
                                         end)
                              (skipn (List.length t) t'))
     = 1 + 2 * List.length tables.
Proof.
  unfold register_parquet_tables. intros H.
  pose proof (RegisterFacts.sorted_perm (glob env data_dir ".parquet")) as Hp.
  apply Permutation_length in Hp.
  destruct (sorted (glob env data_dir ".parquet")) as [|f files] eqn:E;
    [discriminate|].
  unfold run in H. destruct (execute env _ _); [|discriminate].
  apply RegisterMore.register_loop_trace in H as (added & -> & Hsnd & ->).
  simpl. rewrite <- !app_assoc. simpl. split; [reflexivity|]. split.
  - rewrite Hp, <- Hsnd. now rewrite length_map.
  - rewrite skipn_app, skipn_all, Nat.sub_diag. simpl. f_equal.
    clear. induction added as [|b added IH]; simpl; [reflexivity|].
    rewrite IH. lia.
Qed.

Lemma register_effects_witness :
  register_parquet_tables (world_of ["it's.parquet"; "b.parquet"]) []
                          "data" "taxi"
  = Some ([Glob "data" "*.parquet";
           Execute ("CREATE SCHEMA IF NOT EXISTS " ++ String "034" "taxi"
                    ++ String "034" "");
           Resolve (mk_path "data" "b.parquet");
           Execute (nl ++ "            CREATE OR REPLACE VIEW "
                       ++ String "034" "taxi" ++ String "034" "."
                       ++ String "034" "b" ++ String "034" " AS" ++
                    nl ++ "            SELECT * FROM "
                       ++ "read_parquet('/srv/data/b.parquet')" ++
                    nl ++ "            ");
           Execute ("CREATE OR REPLACE VIEW " ++ String "034" "b"
                    ++ String "034" " AS SELECT * FROM "
                    ++ String "034" "taxi" ++ String "034" "."
                    ++ String "034" "b" ++ String "034" "");
           Resolve (mk_path "data" "it's.parquet");
           Execute (nl ++ "            CREATE OR REPLACE VIEW "
                       ++ String "034" "taxi" ++ String "034" "."
                       ++ String "034" "it_s" ++ String "034" " AS" ++
                    nl ++ "            SELECT * FROM "
                       ++ "read_parquet('/srv/data/it''s.parquet')" ++
                    nl ++ "            ");
           Execute ("CREATE OR REPLACE VIEW " ++ String "034" "it_s"
                    ++ String "034" " AS SELECT * FROM "
                    ++ String "034" "taxi" ++ String "034" "."
                    ++ String "034" "it_s" ++ String "034" "")],
          Py.Ok [("b", mk_path "data" "b.parquet");
                 ("it_s", mk_path "data" "it's.parquet")])
  /\ exists t' tables,
       register_parquet_tables (world_of ["it's.parquet"; "b.parquet"]) []
                               "data" "taxi" = Some (t', Py.Ok tables)
       /\ t' = (Glob "data" "*.parquet"
                :: Execute ("CREATE SCHEMA IF NOT EXISTS " ++ dq ++ "taxi"
                            ++ dq)
                :: flat_map (view_events
                               (world_of ["it's.parquet"; "b.parquet"])
                               "taxi") tables)%list
       /\ List.length tables = 2
       /\ List.length (List.filter (fun e => match e with
                                              | Execute _ => true
                                              | _ => false
                                              end) t') = 5.
Proof.
  split; [reflexivity|].
  eexists. eexists. split; [vm_compute; reflexivity|].
  apply (register_effects (world_of ["it's.parquet"; "b.parquet"]) []
                          "data" "taxi").
  vm_compute. reflexivity.
Defined.

(** ** [print_results]: the layout *)

Module RenderMore.

Lemma list_get_middle {A} (pre : list A) x rest :
  Py.list_get (List.length pre) (pre ++ x :: rest)%list = Py.Ok x.
Proof. unfold Py.list_get. now rewrite nth_error_app2, Nat.sub_diag by lia. Qed.

Lemma list_set_middle {A} (pre : list A) x v rest :
  Py.list_set (List.length pre) v (pre ++ x :: rest)%list
  = Py.Ok (pre ++ v :: rest)%list.
Proof.
  induction pre as [|y pre IH]; [reflexivity|].
  change (Py.list_set (List.length (y :: pre)) v ((y :: pre) ++ x :: rest)%list)
    with (match Py.list_set (List.length pre) v (pre ++ x :: rest)%list with
          | Py.Ok l => Py.Ok (y :: l)
          | Py.Raise e => Py.Raise e
          end).
  now rewrite IH.
Qed.

(** One row widens the widths of its columns to its cells. *)
Lemma widen_row_app row : forall pre rest,
  List.length row <= List.length rest ->
  widen_row (List.length pre) row (pre ++ rest)%list
  = Py.Ok (pre ++ pointwise_max rest (List.map length row))%list.
Proof.
  induction row as [|v row IH]; intros pre rest H.
  - simpl. now destruct rest.
  - destruct rest as [|w rest]; [simpl in H; lia|].
    cbn [widen_row]. rewrite list_get_middle. cbn [Py.bind].
    rewrite list_set_middle. cbn [Py.bind].
    replace (S (List.length pre)) with (List.length (pre ++ [Nat.max w (length v)]))
      by (rewrite length_app; simpl; lia).
    replace (pre ++ Nat.max w (length v) :: rest)%list
      with ((pre ++ [Nat.max w (length v)]) ++ rest)%list
      by now rewrite <- app_assoc.
    rewrite IH by (simpl in H; lia).
    now rewrite <- app_assoc.
Qed.

Lemma widen_row_zero row widths :
  List.length row <= List.length widths ->
  widen_row 0 row widths = Py.Ok (pointwise_max widths (List.map length row)).
Proof. intros H. exact (widen_row_app row [] widths H). Qed.

Lemma pointwise_max_length widths lens :
  List.length (pointwise_max widths lens) = List.length widths.
Proof.
  revert lens. induction widths as [|w ws IH]; intros [|l ls]; simpl;
    try reflexivity. now rewrite IH.
Qed.

Lemma widen_eq rows : forall widths,
  Forall (fun row : list string => List.length row <= List.length widths)
         rows ->
  widen rows widths
  = Py.Ok (fold_left (fun ws row => pointwise_max ws (List.map length row))
                     rows widths).
Proof.
  induction rows as [|row rows IH]; intros widths H; [reflexivity|].
  inversion H as [|? ? Hrow Hrows]; subst. cbn [widen fold_left].
  rewrite (widen_row_zero row widths Hrow). cbn [Py.bind].
  apply IH. revert Hrows. apply Forall_impl. intros r Hr.
  now rewrite pointwise_max_length.
Qed.

Lemma ljust_cells_app cells : forall pre rest,
  List.length cells <= List.length rest ->
  ljust_cells (List.length pre) cells (pre ++ rest)%list
  = Py.Ok (padded cells rest).
Proof.
  induction cells as [|v cells IH]; intros pre rest H; [reflexivity|].
  destruct rest as [|w rest]; [simpl in H; lia|].
  cbn [ljust_cells]. rewrite list_get_middle. cbn [Py.bind].
  replace (S (List.length pre)) with (List.length (pre ++ [w]))
    by (rewrite length_app; simpl; lia).
  replace (pre ++ w :: rest)%list with ((pre ++ [w]) ++ rest)%list
    by now rewrite <- app_assoc.
  rewrite IH by (simpl in H; lia). reflexivity.
Qed.

Lemma ljust_cells_zero cells widths :
  List.length cells <= List.length widths ->
  ljust_cells 0 cells widths = Py.Ok (padded cells widths).
Proof. intros H. exact (ljust_cells_app cells [] widths H). Qed.

Lemma print_rows_eq widths rows : forall t,
  Forall (fun row : list string => List.length row <= List.length widths)
         rows ->
  print_rows t rows widths
  = ((t ++ List.map (fun row => Print (table_line widths row)) rows)%list,
     Py.Ok tt).
Proof.
  induction rows as [|row rows IH]; intros t H; simpl.
  - now rewrite app_nil_r.
  - inversion H as [|? ? Hrow Hrows]; subst.
    rewrite (ljust_cells_zero row widths Hrow).
    rewrite IH by assumption. now rewrite <- app_assoc.
Qed.

Lemma fold_widths_length rows : forall widths,
  List.length (fold_left (fun ws row => pointwise_max ws (List.map length row))
                         rows widths)
  = List.length widths.
Proof.
  induction rows as [|row rows IH]; intros widths; simpl; [reflexivity|].
  now rewrite IH, pointwise_max_length.
Qed.

(** [print_results] as a function of the layout. *)
Lemma print_results_eq t c desc m :
  description c = Some desc -> well_formed c -> (0 <= m)%Z ->
  let columns := List.map fst desc in
  let shown :=
    List.map (List.map str_cell) (firstn (Z.to_nat m) (pending c)) in
  let widths := column_widths columns shown in
  print_results t c m =
  ((t ++ FetchMany (m + 1)
      :: Print (table_line widths columns)
      :: Print (separator_line widths)
      :: List.map (fun row => Print (table_line widths row)) shown
      ++ (if (m <? Z.of_nat (List.length (pending c)))%Z
          then [Print (truncation_notice m)] else []))%list,
   snd (fetchmany (m + 1) c),
   Py.Ok tt).
Proof.
  intros Hdesc Hwf Hm columns shown widths.
  unfold well_formed in Hwf. rewrite Hdesc in Hwf.
  assert (Hrows : Forall (fun row : list string =>
                            List.length row <= List.length (List.map length columns))
                         shown).
  { unfold shown, columns. apply Forall_map.
    apply (RenderFacts.Forall_firstn_of _ (Z.to_nat m)) in Hwf.
    revert Hwf. apply Forall_impl. intros row E.
    rewrite !length_map. lia. }
  assert (Hlen : List.length widths = List.length columns).
  { unfold widths, column_widths.
    now rewrite fold_widths_length, length_map. }
  unfold print_results. rewrite Hdesc. unfold fetchmany.
  rewrite RenderFacts.slice_to_nonneg by assumption.
  rewrite firstn_firstn.
  replace (Nat.min (Z.to_nat m) (Z.to_nat (m + 1))) with (Z.to_nat m) by lia.
  fold columns. fold shown.
  rewrite (widen_eq shown _ Hrows).
  fold (column_widths columns shown). fold widths.
  rewrite (ljust_cells_zero columns widths) by lia.
  rewrite print_rows_eq.
  2:{ revert Hrows. apply Forall_impl. intros row Hr.
      rewrite length_map in Hr. lia. }
  rewrite length_firstn.
  replace (m <? Z.of_nat (Nat.min (Z.to_nat (m + 1))
                                  (List.length (pending c))))%Z
    with (m <? Z.of_nat (List.length (pending c)))%Z.
  2:{ destruct (Z.ltb_spec m (Z.of_nat (List.length (pending c))));
      destruct (Z.ltb_spec m (Z.of_nat (Nat.min (Z.to_nat (m + 1))
                                          (List.length (pending c)))));
      try reflexivity; lia. }
  fold (table_line widths columns). fold (separator_line widths).
  destruct (m <? Z.of_nat (List.length (pending c)))%Z; simpl;
    rewrite <- !app_assoc; simpl; rewrite ?app_nil_r; reflexivity.
Qed.

(** Lengths of the lines. *)
Lemma repeat_length c n : length (Str.repeat c n) = n.
Proof. induction n as [|n IH]; simpl; [reflexivity | now rewrite IH]. Qed.

Lemma ljust_length v w : length (Py.ljust v w) = Nat.max (length v) w.
Proof.
  unfold Py.ljust. rewrite StrFacts.length_append, repeat_length. lia.
Qed.

Lemma concat_length sep l :
  length (String.concat sep l)
  = list_sum (List.map length l) + length sep * (List.length l - 1).
Proof.
  induction l as [|x l IH]; [simpl; lia|].
  destruct l as [|y l].
  - simpl. lia.
  - change (String.concat sep (x :: y :: l))
      with (x ++ sep ++ String.concat sep (y :: l)).
    rewrite !StrFacts.length_append, IH. simpl. lia.
Qed.

Lemma padded_lengths cells : forall widths,
  Forall2 (fun v w => length v <= w) cells widths ->
  List.map length (padded cells widths) = widths.
Proof.
  induction cells as [|v cells IH]; intros widths H; inversion H; subst;
    [reflexivity|].
  unfold padded. simpl. rewrite ljust_length. f_equal; [lia|].
  now apply IH.
Qed.

Lemma table_line_length widths cells :
  Forall2 (fun v w => length v <= w) cells widths ->
  length (table_line widths cells) = line_width widths.
Proof.
  intros H. unfold table_line, line_width.
  rewrite concat_length, (padded_lengths cells widths H).
  unfold padded. rewrite length_map, length_combine.
  apply Forall2_length in H. rewrite H, Nat.min_id. reflexivity.
Qed.

Lemma separator_line_length widths :
  length (separator_line widths) = line_width widths.
Proof.
  unfold separator_line, line_width. rewrite concat_length, map_map.
  rewrite length_map. f_equal. f_equal.
  induction widths as [|w ws IH]; simpl; [reflexivity|].
  now rewrite repeat_length, IH.
Qed.

(** The widths dominate the names and the cells. *)
Lemma Forall2_le_refl a : Forall2 le a a.
Proof. induction a; constructor; [lia|assumption]. Qed.

Lemma pointwise_max_l widths : forall lens,
  Forall2 le widths (pointwise_max widths lens).
Proof.
  induction widths as [|w ws IH]; intros lens; [destruct lens; constructor|].
  destruct lens as [|l ls]; [apply Forall2_le_refl|].
  simpl. constructor; [lia|apply IH].
Qed.

Lemma pointwise_max_r widths : forall lens,
  List.length lens = List.length widths ->
  Forall2 le lens (pointwise_max widths lens).
Proof.
  induction widths as [|w ws IH]; intros [|l ls] H; simpl in *;
    try discriminate; constructor; [lia|]. apply IH. lia.
Qed.

Lemma Forall2_le_trans a : forall b c,
  Forall2 le a b -> Forall2 le b c -> Forall2 le a c.
Proof.
  induction a as [|x a IH]; intros b c Hab Hbc; inversion Hab; subst;
    inversion Hbc; subst; constructor; [lia|]. eapply IH; eassumption.
Qed.

Lemma fold_widths_ge rows : forall widths,
  Forall2 le widths
    (fold_left (fun ws row => pointwise_max ws (List.map length row))
               rows widths).
Proof.
  induction rows as [|row rows IH]; intros widths; simpl.
  - apply Forall2_le_refl.
  - eapply Forall2_le_trans; [apply pointwise_max_l|apply IH].
Qed.

Lemma fold_widths_ge_row rows : forall widths row,
  Forall (fun r : list string => List.length r = List.length widths) rows ->
  In row rows ->
  Forall2 le (List.map length row)
    (fold_left (fun ws r => pointwise_max ws (List.map length r))
               rows widths).
Proof.
  induction rows as [|r rows IH]; intros widths row Hall Hin; [contradiction|].
  inversion Hall as [|? ? Hr Hrows]; subst. simpl.
  destruct Hin as [->|Hin].
  - eapply Forall2_le_trans; [|apply fold_widths_ge].
    apply pointwise_max_r. now rewrite length_map.
  - apply IH; [|assumption]. revert Hrows. apply Forall_impl.
    intros x Hx. now rewrite pointwise_max_length.
Qed.

Lemma Forall2_length_le cells widths :
  Forall2 le (List.map length cells) widths ->
  Forall2 (fun v w => length v <= w) cells widths.
Proof.
  revert widths. induction cells as [|v cells IH]; intros widths H;
    inversion H; subst; constructor; [assumption|]. now apply IH.
Qed.

Lemma In_firstn {A} (x : A) n : forall l, In x (firstn n l) -> In x l.
Proof.
  induction n as [|n IH]; intros [|y l] H; simpl in *; try contradiction.
  destruct H as [H|H]; [now left | right; now apply IH].
Qed.

End RenderMore.

(** X9. For a well-formed result set with columns and a [max_rows] that is
    not negative, [print_results] prints a table laid out as follows: the
    width of a column is the greatest length among its name and its cells in
    the rows shown, a null cell counting as [NULL]; the header and each row
    shown are their cells, padded on the right to these widths and joined by
    [ | ]; the separator is one run of dashes per column, joined by [-+-].
    No [IndexError] is raised. *)
Theorem print_results_layout t c desc m :
  description c = Some desc -> well_formed c -> (0 <= m)%Z ->
  let columns := List.map fst desc in
  let shown :=
    List.map (List.map str_cell) (firstn (Z.to_nat m) (pending c)) in
  let widths := column_widths columns shown in
  print_results t c m =
  ((t ++ FetchMany (m + 1)
      :: Print (table_line widths columns)
      :: Print (separator_line widths)
      :: List.map (fun row => Print (table_line widths row)) shown
      ++ (if (m <? Z.of_nat (List.length (pending c)))%Z
          then [Print (truncation_notice m)] else []))%list,
   snd (fetchmany (m + 1) c),
   Py.Ok tt).
Proof.
  intros Hdesc Hwf Hm. cbv zeta.
  apply RenderMore.print_results_eq; assumption.
Qed.

Lemma print_results_layout_witness :
  print_results []
    (mk_cursor (Some [("id", "INTEGER"); ("name", "VARCHAR")])
               [[Some "1"; Some "alice"]; [Some "20"; None]]) 5
  = ([FetchMany 6;
      Print "id | name ";
      Print "---+------";
      Print "1  | alice";
      Print "20 | NULL "],
     mk_cursor (Some [("id", "INTEGER"); ("name", "VARCHAR")]) [],
     Py.Ok tt).
Proof.
  apply (print_results_layout []
           (mk_cursor (Some [("id", "INTEGER"); ("name", "VARCHAR")])
                      [[Some "1"; Some "alice"]; [Some "20"; None]])
           [("id", "INTEGER"); ("name", "VARCHAR")] 5);
    [reflexivity | repeat constructor | lia].
Defined.

(** X10. The table that [print_results] prints is aligned: for a well-formed
    result set with columns and a [max_rows] that is not negative, every
    line printed other than the truncation notice (the header, the separator
    and each row shown) has the same length, the sum of the column widths
    plus three for each gap between two columns. *)
Theorem print_results_aligned t c desc m :
  description c = Some desc -> well_formed c -> (0 <= m)%Z ->
  let widths :=
    column_widths (List.map fst desc)
      (List.map (List.map str_cell) (firstn (Z.to_nat m) (pending c))) in
  forall line,
    In (Print line) (skipn (List.length t) (fst (fst (print_results t c m)))) ->
    line = truncation_notice m \/ length line = line_width widths.
Proof.
  intros Hdesc Hwf Hm widths line Hin.
  rewrite (RenderMore.print_results_eq t c desc m Hdesc Hwf Hm) in Hin.
  cbn [fst] in Hin.
  rewrite skipn_app, skipn_all, Nat.sub_diag in Hin. cbn [skipn app] in Hin.
  fold widths in Hin.
  assert (Hrows : Forall (fun r : list string =>
                    List.length r = List.length (List.map length (List.map fst desc)))
                    (List.map (List.map str_cell)
                       (firstn (Z.to_nat m) (pending c)))).
  { unfold well_formed in Hwf. rewrite Hdesc in Hwf.
    apply Forall_forall. intros r Hr. apply in_map_iff in Hr.
    destruct Hr as (row & <- & Hrow). rewrite !length_map.
    apply (proj1 (Forall_forall _ _) Hwf). eapply RenderMore.In_firstn; eassumption. }
  destruct Hin as [E|[E|[E|Hin]]].
  - discriminate E.
  - injection E as <-. right. apply RenderMore.table_line_length.
    apply RenderMore.Forall2_length_le. apply RenderMore.fold_widths_ge.
  - injection E as <-. right. apply RenderMore.separator_line_length.
  - apply in_app_or in Hin. destruct Hin as [Hin|Hin].
    + apply in_map_iff in Hin. destruct Hin as (row & E & Hrow).
      injection E as <-. right. apply RenderMore.table_line_length.
      apply RenderMore.Forall2_length_le.
      apply RenderMore.fold_widths_ge_row; assumption.
    + destruct (m <? Z.of_nat (List.length (pending c)))%Z;
        [|contradiction].
      destruct Hin as [E|[]]. injection E as <-. left. reflexivity.
Qed.

Lemma print_results_aligned_witness :
  Forall (fun e => match e with
                   | Print line =>
                       line = "... showing first 2 rows" \/ length line = 10
                   | _ => True
                   end)
    (fst (fst (print_results []
       (mk_cursor (Some [("id", "INTEGER"); ("name", "VARCHAR")])
                  [[Some "1"; Some "alice"]; [Some "20"; None];
                   [None; Some "carol"]]) 2))).
Proof.
  apply Forall_forall. intros [| | | | | |line] Hin; try exact I.
  apply (print_results_aligned []
           (mk_cursor (Some [("id", "INTEGER"); ("name", "VARCHAR")])
                      [[Some "1"; Some "alice"]; [Some "20"; None];
                       [None; Some "carol"]])
           [("id", "INTEGER"); ("name", "VARCHAR")] 2);
    [reflexivity | repeat constructor | lia | exact Hin].
Defined.

(** ** The program as a whole *)

Module MainMore.
Import RegisterFacts.

(** The loop over the files answers, and what it raises the engine raised:
    the file names that [glob] finds never make the sanitizer fail. *)
Lemma register_loop_answers env dataset files : forall t loaded,
  Forall (fun f => path_name f <> "") files ->
  exists t' r,
    register_loop env dataset files t loaded = Some (t', r)
    /\ match r with
       | Py.Ok _ => True
       | Py.Raise e => exists t0 sql, execute env t0 sql = Py.Raise e
       end.
Proof.
  induction files as [|f files IH]; intros t loaded Hnames.
  - exists t, (Py.Ok loaded). now split.
  - inversion Hnames as [|? ? Hf Hfiles]; subst.
    destruct (sanitize_ok (stem f) (stem_nonempty f Hf)) as (base & Hbase).
    destruct (free_name_first_unused loaded base) as (name & Hname & _).
    cbn [register_loop]. rewrite Hbase, Hname. unfold run.
    destruct (execute env _ _) as [c1|e1] eqn:E1; cbv beta iota.
    + destruct (execute env _ (mirror_view_sql dataset name))
        as [c2|e2] eqn:E2; cbv beta iota.
      * apply IH. assumption.
      * do 2 eexists. split; [reflexivity|]. cbv beta iota. eauto.
    + do 2 eexists. split; [reflexivity|]. cbv beta iota. eauto.
Qed.

(** The first file gets its sanitized stem as its name. *)
Lemma register_first env dataset f files t t' tables :
  register_loop env dataset (f :: files) t [] = Some (t', Py.Ok tables) ->
  exists base rest,
    sanitize_table_name (stem f) = Py.Ok base
    /\ tables = (base, f) :: rest
    /\ In (Execute (create_view_sql dataset base
                      (Py.replace_char "'" "''" (resolve_posix env f)))) t'.
Proof.
  cbn [register_loop free_name Py.dict_mem existsb List.length]. intros H.
  destruct (sanitize_table_name (stem f)) as [base|e]; [|discriminate].
  unfold run in H.
  destruct (execute env _ _); [|discriminate].
  destruct (execute env _ _); [|discriminate].
  apply RegisterMore.register_loop_trace in H as (added & -> & _ & ->).
  exists base, added. split; [reflexivity|]. split; [reflexivity|].
  rewrite <- !app_assoc. apply in_or_app. right. apply in_or_app. right.
  simpl. auto.
Qed.

Lemma print_rows_extends rows widths : forall t,
  exists more,
    fst (print_rows t rows widths) = (t ++ more)%list /\ Forall rendering more.
Proof.
  induction rows as [|row rows IH]; intros t; cbn [print_rows].
  - exists []. now rewrite app_nil_r.
  - destruct (ljust_cells 0 row widths) as [cells|e].
    + destruct (IH (t ++ [Print (String.concat " | " cells)])%list)
        as (more & -> & Hmore).
      exists (Print (String.concat " | " cells) :: more).
      rewrite <- app_assoc. split; [reflexivity|]. now constructor.
    + exists []. now rewrite app_nil_r.
Qed.

(** [print_results] only adds to the trace, and only fetches and prints. *)
Lemma print_results_extends t c m :
  exists more,
    fst (fst (print_results t c m)) = (t ++ more)%list
    /\ Forall rendering more.
Proof.
  unfold print_results. destruct (description c) as [desc|].
  - unfold fetchmany. cbv zeta.
    destruct (widen _ _) as [widths|e].
    + destruct (ljust_cells 0 _ widths) as [header|e].
      * match goal with
        | |- context [print_rows ?t0 ?rows ?ws] =>
            destruct (print_rows_extends rows ws t0) as (more & E & Hmore);
            destruct (print_rows t0 rows ws) as [t1 [u|e]]
        end; simpl in E; subst.
        -- destruct (_ <? _)%Z; simpl.
           ++ eexists. rewrite <- !app_assoc. split; [reflexivity|].
              simpl. repeat constructor.
              apply Forall_app. split; [assumption|repeat constructor].
           ++ eexists. rewrite <- !app_assoc. split; [reflexivity|].
              simpl. repeat constructor. assumption.
        -- simpl. eexists. rewrite <- !app_assoc. split; [reflexivity|].
           simpl. repeat constructor. assumption.
      * simpl. eexists. split; [reflexivity|]. repeat constructor.
    + simpl. eexists. split; [reflexivity|]. repeat constructor.
  - simpl. eexists. split; [reflexivity|]. repeat constructor.
Qed.

Lemma sorted_named env dir :
  Forall (fun f => path_name f <> "") (sorted (glob env dir ".parquet")).
Proof.
  eapply Permutation_Forall; [apply sorted_perm|apply glob_named].
Qed.

(** A mapping that [register_parquet_tables] returns starts with the first
    file in path order, under its sanitized stem, and its view has been
    created. *)
Lemma register_starts env t data_dir dataset t' tables :
  register_parquet_tables env t data_dir dataset = Some (t', Py.Ok tables) ->
  exists first file rest,
    tables = (first, file) :: rest
    /\ sanitize_table_name (stem file) = Py.Ok first
    /\ In (Execute (create_view_sql dataset first
                      (Py.replace_char "'" "''" (resolve_posix env file)))) t'.
Proof.
  unfold register_parquet_tables. intros H.
  destruct (sorted (glob env data_dir ".parquet")) as [|f files];
    [discriminate|].
  unfold run in H. destruct (execute env _ _); [|discriminate].
  apply register_first in H as (base & rest & Hbase & -> & Hin).
  exists base, f, rest. auto.
Qed.

(** The first table of a mapping is for the first file in path order. *)
Lemma register_starts_sorted env t data_dir dataset t' first file rest :
  register_parquet_tables env t data_dir dataset
    = Some (t', Py.Ok ((first, file) :: rest)) ->
  exists others, sorted (glob env data_dir ".parquet") = file :: others.
Proof.
  unfold register_parquet_tables. intros H.
  destruct (sorted (glob env data_dir ".parquet")) as [|f files];
    [discriminate|].
  unfold run in H. destruct (execute env _ _); [|discriminate].
  apply register_first in H as (base & rest' & _ & E & _).
  injection E as _ <- _. now exists files.
Qed.

Lemma translate_example raw_name table_name dataset default_dataset :
  sanitize_table_name raw_name = Py.Ok table_name ->
  segment word_char dataset ->
  translate_bigquery_sql (example_query dataset table_name) default_dataset
  = "SELECT COUNT(*) AS trips FROM " ++ quoted_pair dataset table_name.
Proof.
  intros Hname Hds.
  apply SanitizeMore.sanitize_shape in Hname as (Hne & Hid & _).
  assert (E : example_query dataset table_name
              = "SELECT COUNT(*) AS trips FROM "
                ++ ref3 "local" dataset table_name ++ "").
  { unfold example_query, ref3. simpl. rewrite ?StrFacts.append_assoc. simpl.
    rewrite ?StrFacts.append_assoc. simpl.
    now rewrite ?StrFacts.append_assoc, ?StrFacts.append_nil_r. }
  rewrite E, TranslateFacts.translate_ref3; try assumption.
  - change (translate_bigquery_sql "" default_dataset) with "".
    now rewrite StrFacts.append_nil_r.
  - reflexivity.
  - split; [discriminate|reflexivity].
  - split; [assumption|]. now apply TranslateMore.all_ident_word.
Qed.

End MainMore.

(** X11. The names of the files that [*.parquet] finds never make
    [sanitize_table_name] raise its [ValueError]: every discovered file has
    a stem for which the sanitizer returns a name, and that name is a
    lower-case identifier. *)
Theorem discovered_stems_always_sanitize env data_dir :
  Forall (fun f => exists name,
                     sanitize_table_name (stem f) = Py.Ok name
                     /\ identifier name)
         (glob env data_dir ".parquet").
Proof.
  pose proof (RegisterFacts.glob_named env data_dir) as Hnames.
  revert Hnames. apply Forall_impl. intros f Hf.
  destruct (RegisterFacts.sanitize_ok (stem f)
              (RegisterFacts.stem_nonempty f Hf)) as (name & Hname).
  exists name. split; [assumption|].
  now apply SanitizeMore.sanitize_shape in Hname.
Qed.

(** X12. Without a query (no [--query] or an empty one, and no query file
    or an empty one), once the tables are registered [main] ends normally:
    it prints the heading, one line per table in the mapping's order, and an
    example whose query names the first table; that table is for the first
    of the discovered files in path order, and its name is the sanitized
    stem of that file.  [next(iter(tables))] never raises
    [StopIteration], and no statement is sent to the engine after the
    registration. *)
Theorem main_lists_tables env args t tables :
  truthy (query args) = false ->
  match query_file args with
  | Some f => read_text env f = Py.Ok ""
  | None => True
  end ->
  register_parquet_tables env [Connect ":memory:"] (data_dir args)
                          (dataset args) = Some (t, Py.Ok tables) ->
  exists first file rest,
    tables = (first, file) :: rest
    /\ (exists others,
          sorted (glob env (data_dir args) ".parquet") = file :: others)
    /\ sanitize_table_name (stem file) = Py.Ok first
    /\ main env args =
       Some ((print_tables
                ((t ++ match query_file args with
                       | Some f => [ReadText f]
                       | None => []
                       end) ++ [Print "Loaded parquet tables:"])
                (dataset args) tables
              ++ [Print (nl ++ "Example:");
                  Print ("uv run python main.py --query '"
                         ++ example_query (dataset args) first ++ "'")])%list,
             Py.Ok tt).
Proof.
  intros Hq Hf Hreg.
  destruct (MainMore.register_starts _ _ _ _ _ _ Hreg)
    as (first & file & rest & -> & Hfirst & _).
  exists first, file, rest. split; [reflexivity|].
  split; [exact (MainMore.register_starts_sorted _ _ _ _ _ _ _ _ Hreg)|].
  split; [assumption|].
  unfold main. rewrite Hq, Hreg. cbn [andb].
  assert (Hex : "uv run python main.py --query " ++
                "'SELECT COUNT(*) AS trips FROM `local." ++ dataset args
                ++ "." ++ first ++ "`'"
                = "uv run python main.py --query '"
                  ++ example_query (dataset args) first ++ "'").
  { unfold example_query. simpl. rewrite ?StrFacts.append_assoc. simpl.
    rewrite ?StrFacts.append_assoc. reflexivity. }
  destruct (query_file args) as [f|].
  - rewrite Hf. cbn [Py.keys List.map fst]. rewrite Hex. reflexivity.
  - rewrite app_nil_r.
    destruct (query args) as [[|c q]|]; [|discriminate Hq|];
      cbn [Py.keys List.map fst]; rewrite Hex; reflexivity.
Qed.

Lemma main_lists_tables_witness :
  exists first file rest,
    [("a", mk_path "data" "A.parquet"); ("a_2", mk_path "data" "a.parquet")]
      = (first, file) :: rest
    /\ (exists others,
          sorted (glob (world_of ["a.parquet"; "A.parquet"]) "data"
                       ".parquet") = file :: others)
    /\ sanitize_table_name (stem file) = Py.Ok first
    /\ main (world_of ["a.parquet"; "A.parquet"])
            (mk_args "data" "taxi" bigquery (Some "") None false 20) =
       Some ([Connect ":memory:"; Glob "data" "*.parquet";
              Execute ("CREATE SCHEMA IF NOT EXISTS " ++ dq ++ "taxi" ++ dq);
              Resolve (mk_path "data" "A.parquet");
              Execute (create_view_sql "taxi" "a" "/srv/data/A.parquet");
              Execute (mirror_view_sql "taxi" "a");
              Resolve (mk_path "data" "a.parquet");
              Execute (create_view_sql "taxi" "a_2" "/srv/data/a.parquet");
              Execute (mirror_view_sql "taxi" "a_2");
              Print "Loaded parquet tables:";
              Print "- taxi.a <- A.parquet";
              Print "- taxi.a_2 <- a.parquet";
              Print (nl ++ "Example:");
              Print ("uv run python main.py --query '"
                     ++ example_query "taxi" first ++ "'")],
             Py.Ok tt).
Proof.
  exact (main_lists_tables (world_of ["a.parquet"; "A.parquet"])
           (mk_args "data" "taxi" bigquery (Some "") None false 20)
           [Connect ":memory:"; Glob "data" "*.parquet";
            Execute ("CREATE SCHEMA IF NOT EXISTS " ++ dq ++ "taxi" ++ dq);
            Resolve (mk_path "data" "A.parquet");
            Execute (create_view_sql "taxi" "a" "/srv/data/A.parquet");
            Execute (mirror_view_sql "taxi" "a");
            Resolve (mk_path "data" "a.parquet");
            Execute (create_view_sql "taxi" "a_2" "/srv/data/a.parquet");
            Execute (mirror_view_sql "taxi" "a_2")]
           [("a", mk_path "data" "A.parquet");
            ("a_2", mk_path "data" "a.parquet")]
           eq_refl I eq_refl).
Defined.

(** X13. The example that [main] prints works: when the dataset name is
    made of letters, digits and underscores and [main] is given, under the
    BigQuery dialect, the example query for the first table of the mapping,
    then after the registration, which has created the view of that table
    in the dataset, the one statement it sends to the engine selects from
    that view by its double-quoted name; everything after that statement is
    the rendering of the result. *)
Theorem printed_example_runs env args t first file rest :
  segment word_char (dataset args) ->
  register_parquet_tables env [Connect ":memory:"] (data_dir args)
                          (dataset args)
    = Some (t, Py.Ok ((first, file) :: rest)) ->
  dialect args = bigquery ->
  query_file args = None ->
  query args = Some (example_query (dataset args) first) ->
  let statement :=
    "SELECT COUNT(*) AS trips FROM " ++ quoted_pair (dataset args) first in
  let shown :=
    if show_sql args
    then [Print "SQL sent to DuckDB:"; Print statement; Print ""]
    else [] in
  In (Execute (create_view_sql (dataset args) first
                 (Py.replace_char "'" "''" (resolve_posix env file)))) t
  /\ includes (create_view_sql (dataset args) first
                 (Py.replace_char "'" "''" (resolve_posix env file)))
              ("VIEW " ++ quoted_pair (dataset args) first ++ " AS")
  /\ exists more r,
       main env args = Some ((t ++ shown ++ Execute statement :: more)%list, r)
       /\ Forall rendering more.
Proof.
  intros Hds Hreg Hdia Hfile Hquery statement shown.
  destruct (MainMore.register_starts _ _ _ _ _ _ Hreg)
    as (first' & file' & rest' & E & Hfirst & Hin).
  injection E as <- <- <-.
  split; [exact Hin|]. split.
  { exists (nl ++ indent12 ++ "CREATE OR REPLACE "),
           (nl ++ indent12 ++ "SELECT * FROM read_parquet('"
               ++ Py.replace_char "'" "''" (resolve_posix env file)
               ++ "')" ++ nl ++ indent12).
    unfold create_view_sql, quoted_pair, dq. simpl.
    rewrite ?StrFacts.append_assoc. simpl.
    rewrite ?StrFacts.append_assoc. simpl.
    rewrite ?StrFacts.append_assoc. reflexivity. }
  pose proof (MainMore.translate_example _ _ _ (dataset args) Hfirst Hds)
    as Htr.
  fold statement in Htr.
  unfold main. rewrite Hquery, Hfile, Hreg, Hdia. cbn [truthy is_path andb].
  rewrite Bool.andb_false_r.
  unfold example_query at 1. cbn [append].
  rewrite Htr.
  assert (Ht : (if show_sql args
                then (t ++ [Print "SQL sent to DuckDB:"; Print statement;
                            Print ""])%list
                else t) = (t ++ shown)%list).
  { unfold shown. destruct (show_sql args);
      [reflexivity | now rewrite app_nil_r]. }
  rewrite Ht.
  destruct (execute env (t ++ shown)%list statement) as [cursor|e].
  - destruct (MainMore.print_results_extends
                ((t ++ shown) ++ [Execute statement])%list cursor
                (max_rows args)) as (more & E & Hmore).
    destruct (print_results _ cursor (max_rows args)) as [[t1 c1] r1].
    simpl in E. subst t1. exists more, r1. rewrite <- !app_assoc.
    split; [reflexivity | assumption].
  - destruct e; eexists [], _; rewrite <- !app_assoc;
      (split; [reflexivity | constructor]).
Qed.

Lemma printed_example_runs_witness :
  In (Execute (create_view_sql "taxi" "a" "/srv/data/A.parquet"))
     [Connect ":memory:"; Glob "data" "*.parquet";
      Execute ("CREATE SCHEMA IF NOT EXISTS " ++ dq ++ "taxi" ++ dq);
      Resolve (mk_path "data" "A.parquet");
      Execute (create_view_sql "taxi" "a" "/srv/data/A.parquet");
      Execute (mirror_view_sql "taxi" "a");
      Resolve (mk_path "data" "a.parquet");
      Execute (create_view_sql "taxi" "a_2" "/srv/data/a.parquet");
      Execute (mirror_view_sql "taxi" "a_2")]
  /\ includes (create_view_sql "taxi" "a" "/srv/data/A.parquet")
              ("VIEW " ++ quoted_pair "taxi" "a" ++ " AS")
  /\ exists more r,
       main (world_of ["a.parquet"; "A.parquet"])
            (mk_args "data" "taxi" bigquery
               (Some "SELECT COUNT(*) AS trips FROM `local.taxi.a`") None
               true 20)
       = Some (([Connect ":memory:"; Glob "data" "*.parquet";
                 Execute ("CREATE SCHEMA IF NOT EXISTS " ++ dq ++ "taxi"
                          ++ dq);
                 Resolve (mk_path "data" "A.parquet");
                 Execute (create_view_sql "taxi" "a" "/srv/data/A.parquet");
                 Execute (mirror_view_sql "taxi" "a");
                 Resolve (mk_path "data" "a.parquet");
                 Execute (create_view_sql "taxi" "a_2" "/srv/data/a.parquet");
                 Execute (mirror_view_sql "taxi" "a_2")]
                ++ [Print "SQL sent to DuckDB:";
                    Print ("SELECT COUNT(*) AS trips FROM "
                           ++ quoted_pair "taxi" "a");
                    Print ""]
                ++ Execute ("SELECT COUNT(*) AS trips FROM "
                            ++ quoted_pair "taxi" "a") :: more)%list, r)
       /\ Forall rendering more.
Proof.
  refine (printed_example_runs (world_of ["a.parquet"; "A.parquet"])
           (mk_args "data" "taxi" bigquery
              (Some "SELECT COUNT(*) AS trips FROM `local.taxi.a`") None
              true 20)
           [Connect ":memory:"; Glob "data" "*.parquet";
            Execute ("CREATE SCHEMA IF NOT EXISTS " ++ dq ++ "taxi" ++ dq);
            Resolve (mk_path "data" "A.parquet");
            Execute (create_view_sql "taxi" "a" "/srv/data/A.parquet");
            Execute (mirror_view_sql "taxi" "a");
            Resolve (mk_path "data" "a.parquet");
            Execute (create_view_sql "taxi" "a_2" "/srv/data/a.parquet");
            Execute (mirror_view_sql "taxi" "a_2")]
           "a" (mk_path "data" "A.parquet")
           [("a_2", mk_path "data" "a.parquet")]
           _ eq_refl eq_refl eq_refl eq_refl).
  split; [discriminate | reflexivity].
Defined.


(** ** The names of the tables *)

Module NamesMore.
Import RegisterFacts.

Lemma uint_digits_empty d :
  Str.all ident_char (NilEmpty.string_of_uint d) = true.
Proof. induction d; simpl; try assumption; reflexivity. Qed.

Lemma uint_digits d : Str.all ident_char (NilZero.string_of_uint d) = true.
Proof. destruct d; try apply uint_digits_empty. reflexivity. Qed.

Lemma str_of_int_digits k :
  (1 <= k)%Z -> Str.all ident_char (Py.str_of_int k) = true.
Proof.
  destruct k as [|p|p]; try lia. intros _.
  unfold Py.str_of_int. simpl. apply uint_digits.
Qed.

Lemma candidate_identifier base k :
  identifier base -> (1 <= k)%Z -> identifier (candidate base k).
Proof.
  intros (Hne & Hid & Hd) Hk. unfold candidate.
  destruct (k <=? 1)%Z; [now repeat split|].
  split; [|split].
  - destruct base; [congruence|discriminate].
  - rewrite !StrFacts.all_append, Hid, str_of_int_digits by assumption.
    reflexivity.
  - destruct base; [congruence|exact Hd].
Qed.

Lemma identifier_fixed name :
  identifier name -> sanitize_table_name name = Py.Ok name.
Proof.
  intros (Hne & Hid & Hd).
  rewrite SanitizeFacts.sanitize_eq, SanitizeFacts.substituted_map.
  rewrite (SanitizeMore.map_fixed ident_char) by
    (assumption || apply SanitizeMore.ident_fixed).
  destruct name as [|c s]; [congruence|].
  simpl in Hid, Hd. apply andb_prop in Hid as [Hc _].
  now rewrite (SanitizeFacts.isdigit_on_ident c Hc), Hd.
Qed.

Lemma register_loop_names env dataset files : forall t loaded t' tables,
  register_loop env dataset files t loaded = Some (t', Py.Ok tables) ->
  exists added,
    tables = (loaded ++ added)%list /\ Forall identifier (Py.keys added).
Proof.
  induction files as [|f files IH]; intros t loaded t' tables H;
    cbn [register_loop] in H.
  - injection H as <- <-. exists []. rewrite app_nil_r. now split.
  - destruct (sanitize_table_name (stem f)) as [base|e] eqn:Hbase;
      [|discriminate].
    destruct (free_name_first_unused loaded base) as (name & Hname & Hfirst).
    rewrite Hname in H.
    destruct Hfirst as (k & Hk & Hcand & Hfree & _).
    unfold run in H.
    destruct (execute env _ _); [|discriminate].
    destruct (execute env _ _); [|discriminate].
    rewrite dict_set_fresh in H by assumption.
    apply IH in H as (added & -> & Hadded).
    exists ((name, f) :: added). rewrite <- app_assoc. split; [reflexivity|].
    simpl. constructor; [|assumption]. rewrite Hcand.
    apply candidate_identifier; [|assumption].
    now apply SanitizeMore.sanitize_shape in Hbase.
Qed.

End NamesMore.

(** X14. Every table name in a mapping that [register_parquet_tables]
    returns, the names made distinct by a numeric suffix included, is a
    lower-case identifier: not empty, made of lower-case letters, digits and
    underscores, not starting with a digit.  So each of them is a name that
    [sanitize_table_name] leaves unchanged. *)
Theorem registered_names_are_identifiers env t data_dir dataset t' tables :
  register_parquet_tables env t data_dir dataset = Some (t', Py.Ok tables) ->
  Forall (fun name => identifier name
                      /\ sanitize_table_name name = Py.Ok name)
         (Py.keys tables).
Proof.
  unfold register_parquet_tables. intros H.
  destruct (sorted (glob env data_dir ".parquet")) as [|f files];
    [discriminate|].
  unfold run in H. destruct (execute env _ _); [|discriminate].
  apply NamesMore.register_loop_names in H as (added & -> & Hadded).
  simpl. revert Hadded. apply Forall_impl. intros name Hname.
  split; [assumption|]. now apply NamesMore.identifier_fixed.
Qed.

Lemma registered_names_are_identifiers_witness :
  Forall (fun name => identifier name
                      /\ sanitize_table_name name = Py.Ok name)
         (Py.keys [("t_2024_trips", mk_path "data" "2024-Trips.parquet");
                   ("t_2024_trips_2", mk_path "data" "2024_trips.parquet")]).
Proof.
  apply (registered_names_are_identifiers
           (world_of ["2024_trips.parquet"; "2024-Trips.parquet"]) []
           "data" "taxi"
           [Glob "data" "*.parquet";
            Execute ("CREATE SCHEMA IF NOT EXISTS " ++ dq ++ "taxi" ++ dq);
            Resolve (mk_path "data" "2024-Trips.parquet");
            Execute (create_view_sql "taxi" "t_2024_trips"
                       "/srv/data/2024-Trips.parquet");
            Execute (mirror_view_sql "taxi" "t_2024_trips");
            Resolve (mk_path "data" "2024_trips.parquet");
            Execute (create_view_sql "taxi" "t_2024_trips_2"
                       "/srv/data/2024_trips.parquet");
            Execute (mirror_view_sql "taxi" "t_2024_trips_2")]).
  reflexivity.
Defined.

(** X15. [main] always answers, whatever the directory holds and whatever
    the engine does: the renaming loop of the registration ends for every
    file.  When the directory holds no parquet file (and the arguments do
    not conflict), [main] ends with the [FileNotFoundError] of the
    registration having only connected and looked: the query file, if any,
    has not been read and nothing has been sent to the engine. *)
Theorem main_always_answers env args :
  exists t r,
    main env args = Some (t, r)
    /\ (glob env (data_dir args) ".parquet" = [] ->
        truthy (query args) && is_path (query_file args) = false ->
        t = [Connect ":memory:"; Glob (data_dir args) "*.parquet"]
        /\ r = Py.Raise (Py.FileNotFoundError
                           ("No parquet files found in " ++ data_dir args))).
Proof.
  unfold main.
  destruct (truthy (query args) && is_path (query_file args)) eqn:Hc.
  - do 2 eexists. split; [reflexivity|]. discriminate.
  - destruct (MainMore.register_loop_answers env (dataset args)
                (sorted (glob env (data_dir args) ".parquet"))
                (([Connect ":memory:"] ++ [Glob (data_dir args) "*.parquet"])
                 ++ [Execute ("CREATE SCHEMA IF NOT EXISTS " ++ dq
                              ++ dataset args ++ dq)])%list []
                (MainMore.sorted_named env (data_dir args)))
      as (t1 & r1 & Hloop & _).
    unfold register_parquet_tables.
    destruct (sorted (glob env (data_dir args) ".parquet")) as [|f files]
      eqn:Hs.
    + do 2 eexists. split; [reflexivity|]. intros _ _. now split.
    + assert (Hne : glob env (data_dir args) ".parquet" <> []).
      { intros E. rewrite E in Hs. discriminate. }
      unfold run.
      destruct (execute env _ _) as [c0|e0].
      * rewrite Hloop. destruct r1 as [tables|e].
        -- destruct (query_file args) as [qf|].
           ++ destruct (read_text env qf) as [text|e].
              ** destruct text as [|ch text].
                 --- destruct (Py.keys tables);
                       do 2 eexists; (split; [reflexivity|tauto]).
                 --- destruct (execute env _ _) as [cursor|[]];
                       try (do 2 eexists; split; [reflexivity|tauto]).
                     destruct (print_results _ cursor (max_rows args))
                       as [[t2 c2] r2].
                     do 2 eexists. split; [reflexivity|tauto].
              ** do 2 eexists. split; [reflexivity|tauto].
           ++ destruct (query args) as [[|ch text]|].
              ** destruct (Py.keys tables);
                   do 2 eexists; (split; [reflexivity|tauto]).
              ** destruct (execute env _ _) as [cursor|[]];
                   try (do 2 eexists; split; [reflexivity|tauto]).
                 destruct (print_results _ cursor (max_rows args))
                   as [[t2 c2] r2].
                 do 2 eexists. split; [reflexivity|tauto].
              ** destruct (Py.keys tables);
                   do 2 eexists; (split; [reflexivity|tauto]).
        -- do 2 eexists. split; [reflexivity|tauto].
      * do 2 eexists. split; [reflexivity|tauto].
Qed.
